(** * bloomd background maintenance threads (src/bloomd/background.c)

    A shallow embedding of the three periodic workers of bloomd -- the
    flush thread, the cold-unmap thread and the memory-check thread --
    and of the three functions that start them.

    The workers talk to the filter manager, to libmemory, to syslog and to
    the shared [should_run] flag.  None of these is implemented in
    background.c, so they are the operations of an interface
    ([Environment]) over an abstract world; every call a worker makes is
    also recorded, with the value it got back, in an event log.  The
    fixed-width C integers are integers of [Z] with the conversions
    written out, and the places where the C code can leave defined
    behaviour are outcomes of their own ([fault]). *)

From Stdlib Require Import ZArith List String Bool Lia.
Import ListNotations.
Open Scope Z_scope.

Set Implicit Arguments.

(** ** Machine integers *)

Module CInt.

(** [int] and [unsigned int] are 32 bits wide, [size_t] 64. *)
Definition INT_MAX : Z := 2147483647.
Definition INT_MIN : Z := -2147483648.
Definition UINT_MODULUS : Z := 4294967296.
Definition SIZE_MODULUS : Z := 18446744073709551616.

Definition fits_int (z : Z) : bool := (INT_MIN <=? z) && (z <=? INT_MAX).

(** Conversion of an [int] to [unsigned int], as the usual arithmetic
    conversions do when one operand of [%] is unsigned. *)
Definition to_unsigned (z : Z) : Z := z mod UINT_MODULUS.

(** [++x] on an [unsigned int]. *)
Definition uincr (x : Z) : Z := (x + 1) mod UINT_MODULUS.

Definition to_size_t (z : Z) : Z := z mod SIZE_MODULUS.

End CInt.
Import CInt.

(** ** Outcomes *)

(** The ways a worker can leave defined behaviour. *)
Inductive fault : Type :=
| NullDereference     (* [node->filter_name] with [node == NULL] *)
| SignedOverflow      (* [sec * 4] outside the range of [int] *)
| DivisionByZero.     (* [ticks % 0] *)

Inductive result (A : Type) : Type :=
| Ok (a : A)
| Fault (f : fault).
Arguments Ok {A} a.
Arguments Fault {A} f.

(** ** Configuration and enumeration results *)

(** The fields of [bloom_config] that background.c reads.  The three
    intervals are [int]s (they are printed with [%d]). *)
Record bloom_config : Type := {
  flush_interval : Z;
  cold_interval : Z;
  memory_check_interval : Z;
  max_memory_percent : Z;
  safe_memory_percent : Z
}.

(** [bloom_filter_list_head]: the [size] field and the chain of nodes
    reached from [head->head] through [node->next], each node carrying its
    [filter_name].  The empty chain is [head->head == NULL]. *)
Record bloom_filter_list_head : Type := {
  size : Z;
  head : list string
}.

Inductive worker : Type := FlushWorker | ColdUnmapWorker | MemoryCheckWorker.

(** ** Events *)

Inductive priority : Type := LOG_INFO | LOG_WARNING.

Inductive log_arg : Type :=
| ArgInt (z : Z)
| ArgStr (s : string).

Inductive event : Type :=
| LoadShouldRun (v : Z)                         (* a read of [*should_run] *)
| Usleep (usec : Z)
| Syslog (p : priority) (fmt : string) (args : list log_arg)
| ClientCheckpoint                              (* filtmgr_client_checkpoint *)
| ListFilters (res : Z) (h : bloom_filter_list_head)
| ListColdFilters (res : Z) (h : bloom_filter_list_head)
| FlushFilter (name : string) (res : Z)
| UnmapFilter (name : string) (res : Z)
| FlushAndUnmapFilter (name : string) (res : Z)
| CleanupList (h : bloom_filter_list_head)
| GetMemorySize (v : Z)
| GetCurrentRSS (v : Z)
| PthreadCreate (entry : worker) (args : bloom_config).

Definition log := list event.

(** ** The environment of the workers *)

(** What background.c calls but does not define.  Every operation may
    change the world: other threads run while a worker is inside a call,
    and the controller may clear [should_run] at any time. *)
Class Environment (W : Type) : Type := {
  env_should_run : W -> Z * W;
  env_usleep : Z -> W -> W;
  env_syslog : W -> W;
  env_client_checkpoint : W -> W;
  env_list_filters : W -> Z * bloom_filter_list_head * W;
  env_list_cold_filters : W -> Z * bloom_filter_list_head * W;
  env_flush_filter : string -> W -> Z * W;
  env_unmap_filter : string -> W -> Z * W;
  env_flush_and_unmap_filter : string -> W -> Z * W;
  env_cleanup_list : bloom_filter_list_head -> W -> W;
  env_get_memory_size : W -> Z * W;
  env_get_current_rss : W -> Z * W;
  env_pthread_create : worker -> bloom_config -> W -> W;
  (* [(size_t)(percent * all_memory * 0.01)]: the product is computed in
     double precision and cast back; it is taken as given. *)
  env_percent_of : Z -> Z -> Z
}.

(** ** A monad for calls, log and faults *)

Module Run.
Section Run.
Variable W : Type.

Definition M (A : Type) : Type := W -> log * W * result A.

Definition ret {A} (a : A) : M A := fun w => ([], w, Ok a).

Definition bind {A B} (m : M A) (f : A -> M B) : M B :=
  fun w =>
    match m w with
    | (l1, w1, Ok a) =>
        match f a w1 with
        | (l2, w2, r) => (l1 ++ l2, w2, r)
        end
    | (l1, w1, Fault x) => (l1, w1, Fault x)
    end.

Definition raise {A} (x : fault) : M A := fun w => ([], w, Fault x).

(** One external call: the world moves and the call is logged together
    with what it returned. *)
Definition call {A} (step : W -> A * W) (ev : A -> event) : M A :=
  fun w => let '(a, w') := step w in ([ev a], w', Ok a).

(** A call whose result is [void]. *)
Definition call_ (step : W -> W) (ev : event) : M unit :=
  fun w => ([ev], step w, Ok tt).

Definition events {A} (o : log * W * result A) : log := fst (fst o).
Definition world {A} (o : log * W * result A) : W := snd (fst o).
Definition outcome {A} (o : log * W * result A) : result A := snd o.

End Run.
Arguments ret {W A} a.
Arguments bind {W A B} m f.
Arguments raise {W A} x.
Arguments call {W A} step ev.
Arguments call_ {W} step ev.
Arguments events {W A} o.
Arguments world {W A} o.
Arguments outcome {W A} o.
End Run.
Import Run.

Declare Scope run_scope.
Delimit Scope run_scope with run.
Notation "x <- m ;; k" := (bind m (fun x => k))
  (at level 61, m at next level, right associativity) : run_scope.
Notation "m ;; k" := (bind m (fun _ => k))
  (at level 61, right associativity) : run_scope.
Open Scope run_scope.

(** ** background.c *)

(** How long a worker sleeps between loop ticks, in microseconds. *)
Definition PERIODIC_TIME_USEC : Z := 250000.

(** After how many background operations a worker forces a client
    checkpoint. *)
Definition PERIODIC_CHECKPOINT : Z := 16.

(** How a worker's loop ended, within the wakes it was given. *)
Inductive status : Type :=
| Returned                  (* [return NULL]: the loop test read 0 *)
| Running (ticks : Z)       (* still in the loop, with this tick counter *)
| Crashed (f : fault).

(** One run of a thread: what it did before the loop, the events of each
    pass through the loop (from the loop test on), and how it ended. *)
Record run (W : Type) : Type := {
  startup : log;
  wakes : list log;
  final : W;
  exit : status
}.

Section Workers.
Context {W : Type} {E : Environment W}.

(** *** The calls *)

Definition load_should_run : M W Z := call env_should_run LoadShouldRun.

Definition usleep (usec : Z) : M W unit := call_ (env_usleep usec) (Usleep usec).

Definition syslog (p : priority) (fmt : string) (args : list log_arg) : M W unit :=
  call_ env_syslog (Syslog p fmt args).

Definition filtmgr_client_checkpoint : M W unit :=
  call_ env_client_checkpoint ClientCheckpoint.

Definition filtmgr_list_filters : M W (Z * bloom_filter_list_head) :=
  call env_list_filters (fun r => ListFilters (fst r) (snd r)).

Definition filtmgr_list_cold_filters : M W (Z * bloom_filter_list_head) :=
  call env_list_cold_filters (fun r => ListColdFilters (fst r) (snd r)).

Definition filtmgr_flush_filter (filter_name : string) : M W Z :=
  call (env_flush_filter filter_name) (FlushFilter filter_name).

Definition filtmgr_unmap_filter (filter_name : string) : M W Z :=
  call (env_unmap_filter filter_name) (UnmapFilter filter_name).

Definition filtmgr_flush_and_unmap_filter (filter_name : string) : M W Z :=
  call (env_flush_and_unmap_filter filter_name) (FlushAndUnmapFilter filter_name).

Definition filtmgr_cleanup_list (h : bloom_filter_list_head) : M W unit :=
  call_ (env_cleanup_list h) (CleanupList h).

Definition getMemorySize : M W Z :=
  call (fun w => let '(v, w') := env_get_memory_size w in (to_size_t v, w'))
       GetMemorySize.

Definition getCurrentRSS : M W Z :=
  call (fun w => let '(v, w') := env_get_current_rss w in (to_size_t v, w'))
       GetCurrentRSS.

(** [PACK_ARGS(); pthread_create(t, NULL, entry, args)]: the arguments
    are packed and handed to the new thread, which writes the handle
    [*t]; the return value of [pthread_create] is not looked at. *)
Definition pthread_create (entry : worker) (args : bloom_config) : M W unit :=
  call_ (env_pthread_create entry args) (PthreadCreate entry args).

(** *** Starting the threads *)

Definition start_flush_thread (config : bloom_config) : M W Z :=
  if flush_interval config <=? 0 then ret 0
  else pthread_create FlushWorker config ;; ret 1.

Definition start_cold_unmap_thread (config : bloom_config) : M W Z :=
  if cold_interval config <=? 0 then ret 0
  else pthread_create ColdUnmapWorker config ;; ret 1.

Definition start_memory_check_thread (config : bloom_config) : M W Z :=
  if memory_check_interval config <=? 0 then ret 0
  else pthread_create MemoryCheckWorker config ;; ret 1.

(** *** The interval test *)

(** [SEC_TO_TICKS(sec)] is [((sec * 4))], a product of [int]s. *)
Definition SEC_TO_TICKS (sec : Z) : M W Z :=
  if fits_int (sec * 4) then ret (sec * 4) else raise SignedOverflow.

(** [(ticks % SEC_TO_TICKS(interval)) == 0 && *should_run], for the
    already incremented [ticks]: the flag is only read when the remainder
    is zero. *)
Definition interval_test (ticks interval : Z) : M W bool :=
  per <- SEC_TO_TICKS interval ;;
  if to_unsigned per =? 0 then raise DivisionByZero
  else if ticks mod to_unsigned per =? 0
       then v <- load_should_run ;; ret (negb (v =? 0))
       else ret false.

(** [if (!(++cmds % PERIODIC_CHECKPOINT)) filtmgr_client_checkpoint(mgr)],
    for the already incremented [cmds]. *)
Definition periodic_checkpoint (cmds : Z) : M W unit :=
  if cmds mod PERIODIC_CHECKPOINT =? 0 then filtmgr_client_checkpoint else ret tt.

(** *** flush_thread_main *)

Fixpoint flush_nodes (node : list string) (cmds : Z) : M W unit :=
  match node with
  | [] => ret tt
  | filter_name :: next =>
      _ <- filtmgr_flush_filter filter_name ;;
      periodic_checkpoint (uincr cmds) ;;
      flush_nodes next (uincr cmds)
  end.

Definition flush_pass : M W unit :=
  syslog LOG_INFO "Scheduled flush started." [] ;;
  r <- filtmgr_list_filters ;;
  if negb (fst r =? 0)
  then syslog LOG_WARNING "Failed to list filters for flushing!" []
  else flush_nodes (head (snd r)) 0 ;;
       filtmgr_cleanup_list (snd r).

Definition flush_wake (config : bloom_config) (ticks : Z) : M W Z :=
  usleep PERIODIC_TIME_USEC ;;
  filtmgr_client_checkpoint ;;
  go <- interval_test (uincr ticks) (flush_interval config) ;;
  (if go : bool then flush_pass else ret tt) ;;
  ret (uincr ticks).

(** *** unmap_thread_main *)

Fixpoint unmap_nodes (node : list string) (cmds : Z) : M W unit :=
  match node with
  | [] => ret tt
  | filter_name :: next =>
      syslog LOG_INFO "Unmapping filter '%s' for being cold." [ArgStr filter_name] ;;
      _ <- filtmgr_unmap_filter filter_name ;;
      periodic_checkpoint (uincr cmds) ;;
      unmap_nodes next (uincr cmds)
  end.

Definition unmap_pass : M W unit :=
  syslog LOG_INFO "Cold unmap started." [] ;;
  r <- filtmgr_list_cold_filters ;;
  if negb (fst r =? 0)
  then ret tt
  else syslog LOG_INFO "Cold filter count: %d" [ArgInt (size (snd r))] ;;
       unmap_nodes (head (snd r)) 0 ;;
       filtmgr_cleanup_list (snd r).

Definition unmap_wake (config : bloom_config) (ticks : Z) : M W Z :=
  usleep PERIODIC_TIME_USEC ;;
  filtmgr_client_checkpoint ;;
  go <- interval_test (uincr ticks) (cold_interval config) ;;
  (if go : bool then unmap_pass else ret tt) ;;
  ret (uincr ticks).

(** *** memory_check_thread_main *)

(** [while (current_memory > safe_memory) { ... node = node->next; }].
    The loop does not test [node]: when the chain has run out and the
    memory is still above the mark, [node->filter_name] is read through a
    null pointer. *)
Fixpoint evict_nodes (safe_memory : Z) (node : list string)
    (cmds current_memory : Z) {struct node} : M W unit :=
  if current_memory >? safe_memory then
    match node with
    | [] => raise NullDereference
    | filter_name :: next =>
        syslog LOG_INFO "Unmapping filter '%s' to free RAM." [ArgStr filter_name] ;;
        _ <- filtmgr_flush_and_unmap_filter filter_name ;;
        periodic_checkpoint (uincr cmds) ;;
        current_memory' <- getCurrentRSS ;;
        evict_nodes safe_memory next (uincr cmds) current_memory'
    end
  else ret tt.

Definition memory_check_pass (max_memory safe_memory : Z) : M W unit :=
  current_memory <- getCurrentRSS ;;
  if current_memory >? max_memory then
    syslog LOG_INFO "Max memory exceeded. Unmapping filters to reclaim RAM." [] ;;
    r <- filtmgr_list_filters ;;
    if negb (fst r =? 0)
    then syslog LOG_WARNING "Failed to list filters for flushing!" []
    else evict_nodes safe_memory (head (snd r)) 0 current_memory ;;
         filtmgr_cleanup_list (snd r)
  else ret tt.

Definition memory_check_wake (max_memory safe_memory : Z)
    (config : bloom_config) (ticks : Z) : M W Z :=
  usleep PERIODIC_TIME_USEC ;;
  filtmgr_client_checkpoint ;;
  go <- interval_test (uincr ticks) (memory_check_interval config) ;;
  (if go : bool then memory_check_pass max_memory safe_memory else ret tt) ;;
  ret (uincr ticks).

(** *** The loop of a thread *)

(** The loop [while] on [*should_run], run for at most [fuel] passes; a
    [continue] in the body is the end of the body.  The events of each
    pass are kept apart. *)
Fixpoint while_should_run (body : Z -> M W Z) (fuel : nat) (ticks : Z) (w : W)
    : list log * W * status :=
  match fuel with
  | O => ([], w, Running ticks)
  | S fuel' =>
      let '(v, w1) := env_should_run w in
      if v =? 0 then ([[LoadShouldRun v]], w1, Returned)
      else
        match body ticks w1 with
        | (l, w2, Ok ticks') =>
            let '(ls, w3, st) := while_should_run body fuel' ticks' w2 in
            ((LoadShouldRun v :: l) :: ls, w3, st)
        | (l, w2, Fault x) => ([LoadShouldRun v :: l], w2, Crashed x)
        end
  end.

(** What a thread does before its loop, followed by the loop from
    [ticks = 0]. *)
Definition thread (before : M W (Z -> M W Z)) (fuel : nat) (w : W) : run W :=
  match before w with
  | (l0, w0, Ok body) =>
      let r := while_should_run body fuel 0 w0 in
      {| startup := l0; wakes := fst (fst r); final := snd (fst r);
         exit := snd r |}
  | (l0, w0, Fault x) =>
      {| startup := l0; wakes := []; final := w0; exit := Crashed x |}
  end.

Definition flush_thread_main (config : bloom_config) : nat -> W -> run W :=
  thread
    (filtmgr_client_checkpoint ;;
     syslog LOG_INFO "Flush thread started. Interval: %d seconds."
            [ArgInt (flush_interval config)] ;;
     ret (flush_wake config)).

Definition unmap_thread_main (config : bloom_config) : nat -> W -> run W :=
  thread
    (filtmgr_client_checkpoint ;;
     syslog LOG_INFO "Cold unmap thread started. Interval: %d seconds."
            [ArgInt (cold_interval config)] ;;
     ret (unmap_wake config)).

Definition memory_check_thread_main (config : bloom_config) : nat -> W -> run W :=
  thread
    (all_memory <- getMemorySize ;;
     let max_memory := to_size_t (env_percent_of (max_memory_percent config) all_memory) in
     let safe_memory := to_size_t (env_percent_of (safe_memory_percent config) all_memory) in
     filtmgr_client_checkpoint ;;
     syslog LOG_INFO "Memory check thread started. Interval: %d seconds."
            [ArgInt (memory_check_interval config)] ;;
     ret (memory_check_wake max_memory safe_memory config)).

End Workers.

(** ** The workers by name *)

Definition interval (k : worker) (config : bloom_config) : Z :=
  match k with
  | FlushWorker => flush_interval config
  | ColdUnmapWorker => cold_interval config
  | MemoryCheckWorker => memory_check_interval config
  end.

Section ByName.
Context {W : Type} {E : Environment W}.

Definition start_thread (k : worker) : bloom_config -> M W Z :=
  match k with
  | FlushWorker => start_flush_thread
  | ColdUnmapWorker => start_cold_unmap_thread
  | MemoryCheckWorker => start_memory_check_thread
  end.

(** The maintenance action of a worker; the two memory marks only matter
    to the memory-check thread. *)
Definition pass (k : worker) (max_memory safe_memory : Z) : M W unit :=
  match k with
  | FlushWorker => flush_pass
  | ColdUnmapWorker => unmap_pass
  | MemoryCheckWorker => memory_check_pass max_memory safe_memory
  end.

Definition wake (k : worker) (max_memory safe_memory : Z)
    : bloom_config -> Z -> M W Z :=
  match k with
  | FlushWorker => flush_wake
  | ColdUnmapWorker => unmap_wake
  | MemoryCheckWorker => memory_check_wake max_memory safe_memory
  end.

(** The shape the three loop bodies share: sleep, checkpoint, count the
    tick, test the interval, act. *)
Definition periodic_wake (seconds : Z) (action : M W unit) (ticks : Z) : M W Z :=
  usleep PERIODIC_TIME_USEC ;;
  filtmgr_client_checkpoint ;;
  go <- interval_test (uincr ticks) seconds ;;
  (if go : bool then action else ret tt) ;;
  ret (uincr ticks).

Definition thread_main (k : worker) : bloom_config -> nat -> W -> run W :=
  match k with
  | FlushWorker => flush_thread_main
  | ColdUnmapWorker => unmap_thread_main
  | MemoryCheckWorker => memory_check_thread_main
  end.

End ByName.

(** ** Reading a log *)

Definition is_checkpoint (e : event) : bool :=
  match e with ClientCheckpoint => true | _ => false end.

(** A flush, an unmap or a flush-and-unmap of one filter. *)
Definition is_filter_call (e : event) : bool :=
  match e with
  | FlushFilter _ _ | UnmapFilter _ _ | FlushAndUnmapFilter _ _ => true
  | _ => false
  end.

Definition is_enumeration (e : event) : bool :=
  match e with ListFilters _ _ | ListColdFilters _ _ => true | _ => false end.

Definition is_successful_enumeration (e : event) : bool :=
  match e with ListFilters 0 _ | ListColdFilters 0 _ => true | _ => false end.

Definition is_release (e : event) : bool :=
  match e with CleanupList _ => true | _ => false end.

Definition is_warning (e : event) : bool :=
  match e with Syslog LOG_WARNING _ _ => true | _ => false end.

Definition is_sample (e : event) : bool :=
  match e with GetCurrentRSS _ => true | _ => false end.

Definition is_flag_read (e : event) : bool :=
  match e with LoadShouldRun _ => true | _ => false end.

Definition count (p : event -> bool) (l : log) : Z :=
  Z.of_nat (List.length (filter p l)).

(** The names of the filters a log flushes, unmaps or evicts, in order. *)
Fixpoint filters_touched (l : log) : list string :=
  match l with
  | [] => []
  | FlushFilter n _ :: l' => n :: filters_touched l'
  | UnmapFilter n _ :: l' => n :: filters_touched l'
  | FlushAndUnmapFilter n _ :: l' => n :: filters_touched l'
  | _ :: l' => filters_touched l'
  end.

(** The resident-memory samples of a log, in order. *)
Fixpoint samples (l : log) : list Z :=
  match l with
  | [] => []
  | GetCurrentRSS v :: l' => v :: samples l'
  | _ :: l' => samples l'
  end.

(** What the loops over the nodes of a chain may log: the calls on a
    filter, the checkpoints in between, the [LOG_INFO] lines and the
    memory samples. *)
Definition is_loop_event (e : event) : bool :=
  match e with
  | FlushFilter _ _ | UnmapFilter _ _ | FlushAndUnmapFilter _ _
  | ClientCheckpoint | Syslog LOG_INFO _ _ | GetCurrentRSS _ => true
  | _ => false
  end.

Definition is_eviction_or_sample (e : event) : bool :=
  is_filter_call e || is_sample e.

(** Every eviction is followed by one sample of the resident memory. *)
Fixpoint resampled (l : log) : bool :=
  match l with
  | [] => true
  | FlushAndUnmapFilter _ _ :: l' =>
      match l' with
      | GetCurrentRSS _ :: l'' => resampled l''
      | _ => false
      end
  | _ => false
  end.

Definition is_syslog (e : event) : bool :=
  match e with Syslog _ _ _ => true | _ => false end.

(** The enumeration of a log returned a nonzero result. *)
Definition enumeration_failed (l : log) : Prop :=
  exists res h,
    res <> 0 /\ (In (ListFilters res h) l \/ In (ListColdFilters res h) l).

(** Whether a line is written to the log after the (first) enumeration. *)
Fixpoint logged_after_enumeration (l : log) : bool :=
  match l with
  | [] => false
  | e :: l' =>
      if is_enumeration e then existsb is_syslog l'
      else logged_after_enumeration l'
  end.


Definition acted (l : log) : bool :=
  match l with
  | LoadShouldRun _ :: Usleep _ :: ClientCheckpoint :: LoadShouldRun _ :: _ :: _ => true
  | _ => false
  end.

(** A pass through the loop is either the loop test that read 0 and
    ended the loop, or a wake: the sleep and, right after it, the
    checkpoint. *)
Definition checkpointed (l : log) : Prop :=
  l = [LoadShouldRun 0] \/
  exists v rest,
    v <> 0 /\
    l = LoadShouldRun v :: Usleep PERIODIC_TIME_USEC :: ClientCheckpoint :: rest.

(** The tick counter after [n] increments from [t]. *)
Definition ticks_after (n : nat) (t : Z) : Z := Nat.iter n uincr t.

(** ** Further readings of a log *)

Definition is_sleep (e : event) : bool :=
  match e with Usleep _ => true | _ => false end.

(** What the loop of thread [k] may call: the flag, the sleep of one
    period, the checkpoint, syslog, and the thread's own enumeration,
    its own call on a filter and the release; the memory-check thread
    also samples the resident memory. *)
Definition permitted (k : worker) (e : event) : bool :=
  match e with
  | LoadShouldRun _ | ClientCheckpoint | Syslog _ _ _ | CleanupList _ => true
  | Usleep usec => usec =? PERIODIC_TIME_USEC
  | ListFilters _ _ =>
      match k with ColdUnmapWorker => false | _ => true end
  | ListColdFilters _ _ =>
      match k with ColdUnmapWorker => true | _ => false end
  | FlushFilter _ _ =>
      match k with FlushWorker => true | _ => false end
  | UnmapFilter _ _ =>
      match k with ColdUnmapWorker => true | _ => false end
  | FlushAndUnmapFilter _ _ | GetCurrentRSS _ =>
      match k with MemoryCheckWorker => true | _ => false end
  | GetMemorySize _ | PthreadCreate _ _ => false
  end.

(** What the loop of thread [k] over the nodes of a chain may log. *)
Definition in_loop (k : worker) (e : event) : bool :=
  match e with
  | ClientCheckpoint => true
  | FlushFilter _ _ =>
      match k with FlushWorker => true | _ => false end
  | UnmapFilter _ _ =>
      match k with ColdUnmapWorker => true | _ => false end
  | Syslog LOG_INFO _ [ArgStr _] =>
      match k with FlushWorker => false | _ => true end
  | FlushAndUnmapFilter _ _ | GetCurrentRSS _ =>
      match k with MemoryCheckWorker => true | _ => false end
  | _ => false
  end.

(** [checkpointed_every n since l]: going through [l] with [since] calls
    on filters already made since the last checkpoint, no call on a
    filter is ever made when [n] calls have gone by without a
    checkpoint. *)
Fixpoint checkpointed_every (n since : nat) (l : log) : bool :=
  match l with
  | [] => true
  | e :: l' =>
      if is_checkpoint e then checkpointed_every n 0 l'
      else if is_filter_call e
           then Nat.ltb since n && checkpointed_every n (S since) l'
           else checkpointed_every n since l'
  end.

(** The calls on filters made since the last checkpoint, at the end of
    [l]. *)
Fixpoint calls_since (since : nat) (l : log) : nat :=
  match l with
  | [] => since
  | e :: l' =>
      if is_checkpoint e then calls_since 0 l'
      else if is_filter_call e then calls_since (S since) l'
      else calls_since since l'
  end.

(** The name a call on a filter is made with. *)
Definition called_name (e : event) : option string :=
  match e with
  | FlushFilter n _ | UnmapFilter n _ | FlushAndUnmapFilter n _ => Some n
  | _ => None
  end.

(** The filter a line of the log names. *)
Definition announced_name (e : event) : option string :=
  match e with
  | Syslog _ _ [ArgStr n] => Some n
  | _ => None
  end.

(** [announced pending l]: every line of [l] that names a filter is
    followed, before the next such line, by the call on that very
    filter, and no call is made on a filter that the line before it did
    not name.  [pending] is the filter named and not yet called on. *)
Fixpoint announced (pending : option string) (l : log) : bool :=
  match l with
  | [] => match pending with None => true | Some _ => false end
  | e :: l' =>
      match announced_name e, called_name e with
      | Some n, _ =>
          match pending with
          | None => announced (Some n) l'
          | Some _ => false
          end
      | None, Some m =>
          match pending with
          | Some n => String.eqb n m && announced None l'
          | None => false
          end
      | None, None => announced pending l'
      end
  end.

(** The lines and samples around the enumeration of a pass: syslog
    lines that name no filter, and the first sample of the resident
    memory. *)
Definition is_frame (e : event) : bool :=
  match e with
  | Syslog _ _ [] | Syslog _ _ [ArgInt _] | GetCurrentRSS _ => true
  | _ => false
  end.

(** The enumeration thread [k] makes, with its result. *)
Definition enumeration_of (k : worker) (res : Z) (h : bloom_filter_list_head)
    : event :=
  match k with
  | ColdUnmapWorker => ListColdFilters res h
  | _ => ListFilters res h
  end.

(** A pass through the loop is the loop test that ended the loop, or it
    sleeps once and reads the flag once for the loop test and at most
    once more, for the interval test. *)
Definition paced (l : log) : Prop :=
  l = [LoadShouldRun 0] \/
  count is_sleep l = 1 /\ 1 <= count is_flag_read l <= 2.

Definition is_memory_size (e : event) : bool :=
  match e with GetMemorySize _ => true | _ => false end.

(** The lines of thread [k] name the filters it calls on; the flush
    thread names none. *)
Definition lines_match_calls (k : worker) (l : log) : Prop :=
  match k with
  | FlushWorker => Forall (fun e => announced_name e = None) l
  | _ => announced None l = true
  end.

(** ** The interval rule *)

Section Rules.
Context {W : Type} {E : Environment W}.



(** What is asked of a pass whose enumeration succeeded, whatever
    happens to the flag meanwhile: it never reads the flag, it calls on
    every filter of the chain, in order, it releases the list once and
    it ends well. *)
Definition pass_completes (k : worker) : Prop :=
  forall mx sf (w : W) h,
    let l := events (pass k mx sf w) in
    In (ListFilters 0 h) l \/ In (ListColdFilters 0 h) l ->
    count is_flag_read l = 0 /\
    filters_touched l = head h /\
    count is_release l = 1 /\
    outcome (pass k mx sf w) = Ok tt.

(** What is asked of a pass whose enumeration failed: no call on a
    filter, no release, a line in the log after the failure, and a good
    end, so that the loop goes on. *)
Definition failure_rule (k : worker) : Prop :=
  forall mx sf (w : W),
    let l := events (pass k mx sf w) in
    enumeration_failed l ->
    count is_filter_call l = 0 /\
    count is_release l = 0 /\
    logged_after_enumeration l = true /\
    outcome (pass k mx sf w) = Ok tt.

End Rules.

(** ** A simulated environment *)

Module Sim.

(** A scripted world: the flag as a function of how often it was read,
    the results the two enumerations will give in turn, and a resident
    set that every flush-and-unmap shrinks by a fixed amount. *)
Record world : Type := {
  flag : nat -> Z;
  reads : nat;
  listings : list (Z * bloom_filter_list_head);
  cold_listings : list (Z * bloom_filter_list_head);
  total : Z;
  rss : Z;
  freed : Z
}.

Definition no_list : Z * bloom_filter_list_head := (-1, {| size := 0; head := [] |}).

Definition read_flag (w : world) : Z * world :=
  (flag w (reads w),
   {| flag := flag w; reads := S (reads w); listings := listings w;
      cold_listings := cold_listings w; total := total w; rss := rss w;
      freed := freed w |}).

Definition list_filters (w : world) : Z * bloom_filter_list_head * world :=
  (hd no_list (listings w),
   {| flag := flag w; reads := reads w; listings := tl (listings w);
      cold_listings := cold_listings w; total := total w; rss := rss w;
      freed := freed w |}).

Definition list_cold_filters (w : world) : Z * bloom_filter_list_head * world :=
  (hd no_list (cold_listings w),
   {| flag := flag w; reads := reads w; listings := listings w;
      cold_listings := tl (cold_listings w); total := total w; rss := rss w;
      freed := freed w |}).

Definition evict (w : world) : Z * world :=
  (0,
   {| flag := flag w; reads := reads w; listings := listings w;
      cold_listings := cold_listings w; total := total w;
      rss := Z.max 0 (rss w - freed w); freed := freed w |}).

#[global] Instance environment : Environment world := {|
  env_should_run := read_flag;
  env_usleep := fun _ w => w;
  env_syslog := fun w => w;
  env_client_checkpoint := fun w => w;
  env_list_filters := list_filters;
  env_list_cold_filters := list_cold_filters;
  env_flush_filter := fun _ w => (0, w);
  env_unmap_filter := fun _ w => (0, w);
  env_flush_and_unmap_filter := fun _ => evict;
  env_cleanup_list := fun _ w => w;
  env_get_memory_size := fun w => (total w, w);
  env_get_current_rss := fun w => (rss w, w);
  env_pthread_create := fun _ _ w => w;
  env_percent_of := fun percent all_memory => percent * all_memory / 100
|}.

(** [n] filters, named by their position. *)
Fixpoint names (n : nat) : list string :=
  match n with
  | O => []
  | S n' => names n' ++ [String (Ascii.ascii_of_nat (97 + n')) EmptyString]
  end.

Definition listing (l : list string) : Z * bloom_filter_list_head :=
  (0, {| size := Z.of_nat (List.length l); head := l |}).

Definition config (seconds : Z) : bloom_config :=
  {| flush_interval := seconds; cold_interval := seconds;
     memory_check_interval := seconds;
     max_memory_percent := 80; safe_memory_percent := 50 |}.

(** A world that never asks the threads to stop. *)
Definition steady (ls cs : list (Z * bloom_filter_list_head)) (m d : Z) : world :=
  {| flag := fun _ => 1; reads := 0; listings := ls; cold_listings := cs;
     total := 100; rss := m; freed := d |}.

(** A world that clears the flag after [n] reads of it. *)
Definition stopping (n : nat) (ls cs : list (Z * bloom_filter_list_head))
    (m d : Z) : world :=
  {| flag := fun i => if Nat.ltb i n then 1 else 0; reads := 0;
     listings := ls; cold_listings := cs; total := 100; rss := m; freed := d |}.

(** How many evictions of [d] each it takes to bring [m] down to [safe]
    or below: none when it is there already, else [(m - safe) / d]
    rounded up. *)
Definition evictions_needed (m safe d : Z) : nat :=
  if m <=? safe then O else Z.to_nat ((m - safe + d - 1) / d).

(** *** Scenarios *)

(** Two filters that free 20 each, from 100, with the marks at 80 and
    50: both are evicted and the memory is still at 60. *)
Definition two_filters : world :=
  steady [listing (names 2)] [] 100 20.

(** No filter at all, and the memory above the maximum. *)
Definition no_filter : world := steady [listing []] [] 100 20.

(** Five filters that free 20 each, from 100: three evictions reach 40. *)
Definition five_filters : world :=
  steady [listing (names 5)] [] 100 20.

(** An enumeration that fails, and then one that gives three filters. *)
Definition failing_once : world :=
  steady [no_list; listing (names 3)]
             [no_list; listing (names 3)] 100 20.

(** The flag is cleared after four reads: the four loop tests of the
    first second pass, the interval test of the fourth wake reads 0. *)
Definition stopped_at_the_test : world :=
  stopping 4 [listing (names 3)] [listing (names 3)] 100 20.

(** The flag is cleared after five reads: the interval test of the
    fourth wake still reads 1, the loop test after the pass reads 0. *)
Definition stopped_in_the_pass : world :=
  stopping 5 [listing (names 5)] [listing (names 5)] 100 20.


End Sim.


(** * Properties *)

(** ** Machine integers *)

Lemma uincr_range x : 0 <= uincr x < UINT_MODULUS.
Proof. unfold uincr, UINT_MODULUS. apply Z.mod_pos_bound. lia. Qed.


(** The checkpoint period divides the modulus of [unsigned int], so the
    wrap of [cmds] does not disturb [cmds % PERIODIC_CHECKPOINT]. *)
Lemma uincr_mod_checkpoint c :
  uincr c mod PERIODIC_CHECKPOINT = (c + 1) mod PERIODIC_CHECKPOINT.
Proof.
  unfold uincr, PERIODIC_CHECKPOINT, UINT_MODULUS.
  replace 4294967296 with (16 * 268435456) by reflexivity.
  rewrite Z.rem_mul_r by lia.
  rewrite Z.mul_comm, Z.mod_add by lia.
  apply Z.mod_mod. lia.
Qed.

(** ** The monad *)

Section MonadLaws.
Context {W : Type}.

Lemma bind_ret A B (a : A) (k : A -> M W B) w : bind (ret a) k w = k a w.
Proof. unfold bind, ret. destruct (k a w) as [[l w'] r]. reflexivity. Qed.

Lemma bind_raise A B x (k : A -> M W B) w :
  bind (raise x) k w = ([], w, Fault x).
Proof. reflexivity. Qed.

Lemma bind_call_ B step ev (k : unit -> M W B) w :
  bind (call_ step ev) k w =
  (ev :: events (k tt (step w)), world (k tt (step w)), outcome (k tt (step w))).
Proof.
  unfold bind, call_, events, world, outcome.
  destruct (k tt (step w)) as [[l w'] r]. reflexivity.
Qed.

Lemma bind_call A B (step : W -> A * W) ev (k : A -> M W B) w :
  bind (call step ev) k w =
  (ev (fst (step w)) :: events (k (fst (step w)) (snd (step w))),
   world (k (fst (step w)) (snd (step w))),
   outcome (k (fst (step w)) (snd (step w)))).
Proof.
  unfold bind, call, events, world, outcome.
  destruct (step w) as [a w1]. simpl.
  destruct (k a w1) as [[l w'] r]. reflexivity.
Qed.

Lemma bind_events A B (m : M W A) (k : A -> M W B) w :
  events (bind m k w) =
  events (m w) ++
  match outcome (m w) with
  | Ok a => events (k a (world (m w)))
  | Fault _ => []
  end.
Proof.
  unfold bind, events, world, outcome.
  destruct (m w) as [[l1 w1] [a|x]]; simpl.
  - destruct (k a w1) as [[l2 w2] r]. reflexivity.
  - symmetry. apply app_nil_r.
Qed.

Lemma bind_outcome A B (m : M W A) (k : A -> M W B) w :
  outcome (bind m k w) =
  match outcome (m w) with
  | Ok a => outcome (k a (world (m w)))
  | Fault x => Fault x
  end.
Proof.
  unfold bind, events, world, outcome.
  destruct (m w) as [[l1 w1] [a|x]]; simpl; [|reflexivity].
  destruct (k a w1) as [[l2 w2] r]. reflexivity.
Qed.

Lemma bind_known A B (m : M W A) (k : A -> M W B) w l1 w1 a :
  m w = (l1, w1, Ok a) ->
  bind m k w = (l1 ++ events (k a w1), world (k a w1), outcome (k a w1)).
Proof.
  intros H. unfold bind. rewrite H.
  destruct (k a w1) as [[l2 w2] r]. reflexivity.
Qed.

Lemma bind_failed A B (m : M W A) (k : A -> M W B) w l1 w1 x :
  m w = (l1, w1, Fault x) -> bind m k w = (l1, w1, Fault x).
Proof. intros H. unfold bind. rewrite H. reflexivity. Qed.

Lemma triple_eta A (o : log * W * result A) :
  o = (events o, world o, outcome o).
Proof. destruct o as [[l w] r]. reflexivity. Qed.

Lemma bind_ok A B (m : M W A) (k : A -> M W B) w a :
  outcome (m w) = Ok a ->
  bind m k w =
  (events (m w) ++ events (k a (world (m w))),
   world (k a (world (m w))), outcome (k a (world (m w)))).
Proof.
  intros H. apply bind_known. rewrite (triple_eta (m w)) at 1.
  rewrite H. reflexivity.
Qed.

Lemma bind_fault A B (m : M W A) (k : A -> M W B) w x :
  outcome (m w) = Fault x ->
  bind m k w = (events (m w), world (m w), Fault x).
Proof.
  intros H. apply bind_failed. rewrite (triple_eta (m w)) at 1.
  rewrite H. reflexivity.
Qed.

End MonadLaws.

(** ** Counting in a log *)

Lemma count_app p l1 l2 : count p (l1 ++ l2) = count p l1 + count p l2.
Proof. unfold count. rewrite filter_app, length_app. lia. Qed.

Lemma count_cons p e l : count p (e :: l) = (if p e then 1 else 0) + count p l.
Proof. unfold count. simpl. destruct (p e); simpl List.length; lia. Qed.

Lemma count_nil p : count p [] = 0.
Proof. reflexivity. Qed.

Lemma count_nonneg p l : 0 <= count p l.
Proof. unfold count. lia. Qed.

Lemma filters_touched_app l1 l2 :
  filters_touched (l1 ++ l2) = filters_touched l1 ++ filters_touched l2.
Proof.
  induction l1 as [|e l1 IH]; [reflexivity|].
  destruct e; simpl; rewrite IH; reflexivity.
Qed.

Lemma samples_app l1 l2 : samples (l1 ++ l2) = samples l1 ++ samples l2.
Proof.
  induction l1 as [|e l1 IH]; [reflexivity|].
  destruct e; simpl; rewrite IH; reflexivity.
Qed.

Lemma filters_touched_length l :
  Z.of_nat (List.length (filters_touched l)) = count is_filter_call l.
Proof.
  induction l as [|e l IH]; [reflexivity|].
  rewrite count_cons. destruct e; simpl filters_touched; simpl is_filter_call;
    simpl List.length; lia.
Qed.

(** ** Taking a computation apart *)

Ltac prims :=
  unfold load_should_run, usleep, syslog, filtmgr_client_checkpoint,
    filtmgr_list_filters, filtmgr_list_cold_filters, filtmgr_flush_filter,
    filtmgr_unmap_filter, filtmgr_flush_and_unmap_filter,
    filtmgr_cleanup_list, getMemorySize, getCurrentRSS, pthread_create.

Ltac proj := cbn [events world outcome fst snd app].
Ltac proj_in H := cbn [events world outcome fst snd app] in H.

Ltac mstep :=
  prims;
  repeat first
    [ rewrite bind_call_ | rewrite bind_call | rewrite bind_ret
    | rewrite bind_raise ];
  proj.

Section NodeLoops.
Context {W : Type} {E : Environment W}.

Lemma periodic_checkpoint_cases cmds (w : W) :
  (cmds mod PERIODIC_CHECKPOINT = 0 /\
   periodic_checkpoint cmds w = ([ClientCheckpoint], env_client_checkpoint w, Ok tt)) \/
  (cmds mod PERIODIC_CHECKPOINT <> 0 /\
   periodic_checkpoint cmds w = ([], w, Ok tt)).
Proof.
  unfold periodic_checkpoint.
  destruct (Z.eqb_spec (cmds mod PERIODIC_CHECKPOINT) 0); [left|right];
    split; auto.
Qed.

(** Arithmetic of the checkpoint counter: one more processed filter. *)
Lemma checkpoint_count_step c n :
  0 <= c -> 0 <= n ->
  (if (c + 1) mod 16 =? 0 then 1 else 0) + ((c + 1) mod 16 + n) / 16 =
  (c mod 16 + Z.succ n) / 16.
Proof.
  intros. destruct (Z.eqb_spec ((c + 1) mod 16) 0);
    Z.div_mod_to_equations; lia.
Qed.

(** What the flush loop over a chain does: it flushes every node in
    order, whatever the flushes return, never reads the flag and forces a
    checkpoint after every sixteenth filter. *)
Lemma flush_nodes_spec node : forall cmds (w : W), 0 <= cmds ->
  let o := flush_nodes node cmds w in
  outcome o = Ok tt /\
  filters_touched (events o) = node /\
  count is_checkpoint (events o) =
    (cmds mod PERIODIC_CHECKPOINT + Z.of_nat (List.length node)) / PERIODIC_CHECKPOINT /\
  Forall (fun e => is_loop_event e = true) (events o).
Proof.
  induction node as [|n next IH]; intros cmds w Hc; cbv zeta;
    cbn [flush_nodes List.length].
  - repeat split; auto.
    unfold PERIODIC_CHECKPOINT. rewrite Z.add_0_r.
    symmetry. apply Z.div_small. apply Z.mod_pos_bound. lia.
  - pose proof (uincr_range cmds) as Hr.
    specialize (IH (uincr cmds)). cbv zeta in IH.
    mstep.
    set (w1 := snd (env_flush_filter n w)).
    set (r1 := fst (env_flush_filter n w)).
    rewrite Nat2Z.inj_succ.
    destruct (periodic_checkpoint_cases (uincr cmds) w1) as [[Hd Hp]|[Hd Hp]];
      (erewrite bind_known by exact Hp); proj;
      [ destruct (IH (env_client_checkpoint w1) ltac:(lia)) as (Ho & Ht & Hk & Hf)
      | destruct (IH w1 ltac:(lia)) as (Ho & Ht & Hk & Hf) ];
      rewrite uincr_mod_checkpoint in *; unfold PERIODIC_CHECKPOINT in *;
      (split; [exact Ho|]); (split; [simpl; rewrite Ht; reflexivity|]); split.
    + rewrite !count_cons. simpl is_checkpoint. cbn iota. rewrite Hk.
      rewrite <- checkpoint_count_step by lia.
      rewrite Hd. reflexivity.
    + repeat (constructor; [reflexivity|]). exact Hf.
    + rewrite !count_cons. simpl is_checkpoint. cbn iota. rewrite Hk.
      rewrite <- checkpoint_count_step by lia.
      destruct (Z.eqb_spec ((cmds + 1) mod 16) 0); [contradiction|reflexivity].
    + repeat (constructor; [reflexivity|]). exact Hf.
Qed.

(** The unmap loop: the same, with a line in the log for every filter. *)
Lemma unmap_nodes_spec node : forall cmds (w : W), 0 <= cmds ->
  let o := unmap_nodes node cmds w in
  outcome o = Ok tt /\
  filters_touched (events o) = node /\
  count is_checkpoint (events o) =
    (cmds mod PERIODIC_CHECKPOINT + Z.of_nat (List.length node)) / PERIODIC_CHECKPOINT /\
  Forall (fun e => is_loop_event e = true) (events o).
Proof.
  induction node as [|n next IH]; intros cmds w Hc; cbv zeta;
    cbn [unmap_nodes List.length].
  - repeat split; auto.
    unfold PERIODIC_CHECKPOINT. rewrite Z.add_0_r.
    symmetry. apply Z.div_small. apply Z.mod_pos_bound. lia.
  - pose proof (uincr_range cmds) as Hr.
    specialize (IH (uincr cmds)). cbv zeta in IH.
    mstep.
    set (w1 := snd (env_unmap_filter n (env_syslog w))).
    set (r1 := fst (env_unmap_filter n (env_syslog w))).
    rewrite Nat2Z.inj_succ.
    destruct (periodic_checkpoint_cases (uincr cmds) w1) as [[Hd Hp]|[Hd Hp]];
      (erewrite bind_known by exact Hp); proj;
      [ destruct (IH (env_client_checkpoint w1) ltac:(lia)) as (Ho & Ht & Hk & Hf)
      | destruct (IH w1 ltac:(lia)) as (Ho & Ht & Hk & Hf) ];
      rewrite uincr_mod_checkpoint in *; unfold PERIODIC_CHECKPOINT in *;
      (split; [exact Ho|]); (split; [simpl; rewrite Ht; reflexivity|]); split.
    + rewrite !count_cons. simpl is_checkpoint. cbn iota. rewrite Hk.
      rewrite <- checkpoint_count_step by lia.
      rewrite Hd. reflexivity.
    + repeat (constructor; [reflexivity|]). exact Hf.
    + rewrite !count_cons. simpl is_checkpoint. cbn iota. rewrite Hk.
      rewrite <- checkpoint_count_step by lia.
      destruct (Z.eqb_spec ((cmds + 1) mod 16) 0); [contradiction|reflexivity].
    + repeat (constructor; [reflexivity|]). exact Hf.
Qed.

(** The eviction loop.  [cur] is the reading the loop starts from; the
    readings it compares with the mark are [cur] and then its own
    samples, one after each eviction. *)
Lemma evict_nodes_spec safe node : forall cmds cur (w : W), 0 <= cmds ->
  let o := evict_nodes safe node cmds cur w in
  let readings := cur :: samples (events o) in
  (exists rest, node = filters_touched (events o) ++ rest) /\
  List.length (samples (events o)) = List.length (filters_touched (events o)) /\
  resampled (filter is_eviction_or_sample (events o)) = true /\
  Forall (fun v => v > safe) (removelast readings) /\
  (outcome o = Ok tt /\ last readings 0 <= safe \/
   outcome o = Fault NullDereference /\ last readings 0 > safe /\
   filters_touched (events o) = node) /\
  count is_checkpoint (events o) =
    (cmds mod PERIODIC_CHECKPOINT + count is_filter_call (events o)) / PERIODIC_CHECKPOINT /\
  Forall (fun e => is_loop_event e = true) (events o).
Proof.
  assert (Hbase : forall c, 0 <= c -> 0 = (c mod 16 + 0) / 16).
  { intros. rewrite Z.add_0_r. symmetry. apply Z.div_small.
    apply Z.mod_pos_bound. lia. }
  induction node as [|n next IH]; intros cmds cur w Hc; cbv zeta;
    cbn [evict_nodes]; destruct (Z.gtb_spec cur safe) as [Hgt|Hle].
  - proj. rewrite !count_nil. unfold PERIODIC_CHECKPOINT.
    split; [exists []; reflexivity|]. do 2 (split; [reflexivity|]).
    split; [constructor|].
    split; [right; repeat split; simpl; auto; lia|].
    split; [apply Hbase; exact Hc|constructor].
  - proj. rewrite !count_nil. unfold PERIODIC_CHECKPOINT.
    split; [exists []; reflexivity|]. do 2 (split; [reflexivity|]).
    split; [constructor|].
    split; [left; repeat split; simpl; auto; lia|].
    split; [apply Hbase; exact Hc|constructor].
  - pose proof (uincr_range cmds) as Hr.
    specialize (IH (uincr cmds)). cbv zeta in IH.
    mstep.
    set (w1 := snd (env_flush_and_unmap_filter n (env_syslog w))).
    set (r1 := fst (env_flush_and_unmap_filter n (env_syslog w))).
    assert (Hstep : forall w2 l0,
      Forall (fun e => is_loop_event e = true) l0 ->
      filters_touched l0 = [] -> samples l0 = [] ->
      filter is_eviction_or_sample l0 = [] ->
      count is_checkpoint l0 = (if (cmds + 1) mod 16 =? 0 then 1 else 0) ->
      let o := (current_memory' <- getCurrentRSS ;;
                evict_nodes safe next (uincr cmds) current_memory') w2 in
      let l := Syslog LOG_INFO "Unmapping filter '%s' to free RAM." [ArgStr n]
               :: FlushAndUnmapFilter n r1 :: l0 ++ events o in
      let readings := cur :: samples l in
      (exists rest, n :: next = filters_touched l ++ rest) /\
      List.length (samples l) = List.length (filters_touched l) /\
      resampled (filter is_eviction_or_sample l) = true /\
      Forall (fun v => v > safe) (removelast readings) /\
      (outcome o = Ok tt /\ last readings 0 <= safe \/
       outcome o = Fault NullDereference /\ last readings 0 > safe /\
       filters_touched l = n :: next) /\
      count is_checkpoint l =
        (cmds mod PERIODIC_CHECKPOINT + count is_filter_call l) / PERIODIC_CHECKPOINT /\
      Forall (fun e => is_loop_event e = true) l).
    { intros w2 l0 Hl0 Ht0 Hs0 Hf0 Hk0. cbv zeta. mstep.
      set (v := to_size_t (fst (env_get_current_rss w2))).
      set (w3 := snd (let '(v, w') := env_get_current_rss w2 in (to_size_t v, w'))).
      assert (Hv : fst (let '(v, w') := env_get_current_rss w2 in (to_size_t v, w')) = v).
      { unfold v. destruct (env_get_current_rss w2). reflexivity. }
      rewrite Hv.
      destruct (IH v w3 ltac:(lia)) as ((rest & Hpre) & Hlen & Hres & Hall & Hend & Hk & Hf).
      set (o := evict_nodes safe next (uincr cmds) v w3) in *.
      cbn [filters_touched samples filter is_eviction_or_sample is_filter_call
           is_sample orb].
      rewrite filters_touched_app, samples_app, filter_app, Ht0, Hs0, Hf0.
      cbn [app filters_touched samples filter is_eviction_or_sample
           is_filter_call is_sample orb resampled List.length].
      split; [exists rest; rewrite Hpre at 1; reflexivity|].
      split; [rewrite Hlen; reflexivity|].
      split; [exact Hres|].
      split.
      { change (cur :: v :: samples (events o))
          with ([cur] ++ (v :: samples (events o))).
        rewrite removelast_app by discriminate.
        constructor; [lia|exact Hall]. }
      split.
      { change (last (cur :: v :: samples (events o)) 0)
          with (last (v :: samples (events o)) 0).
        destruct Hend as [[Ho Hlast]|(Ho & Hlast & Ht)];
          [left|right]; repeat split; auto.
        rewrite Ht. reflexivity. }
      split.
      { rewrite !count_cons, !count_app, !count_cons.
        cbn [is_checkpoint is_filter_call].
        rewrite Hk0, Hk. rewrite uincr_mod_checkpoint.
        unfold PERIODIC_CHECKPOINT.
        assert (Hnone : count is_filter_call l0 = 0).
        { rewrite <- filters_touched_length, Ht0. reflexivity. }
        rewrite Hnone.
        pose proof (count_nonneg is_filter_call (events o)).
        replace (0 + (1 + (0 + (0 + count is_filter_call (events o)))))
          with (Z.succ (count is_filter_call (events o))) by lia.
        rewrite <- checkpoint_count_step by lia.
        lia. }
      repeat (constructor; [reflexivity|]).
      apply Forall_app. split; [exact Hl0|].
      constructor; [reflexivity|exact Hf]. }
    destruct (periodic_checkpoint_cases (uincr cmds) w1) as [[Hd Hp]|[Hd Hp]];
      (erewrite bind_known by exact Hp); proj;
      rewrite uincr_mod_checkpoint in Hd; unfold PERIODIC_CHECKPOINT in Hd.
    + apply (Hstep (env_client_checkpoint w1) [ClientCheckpoint]); auto.
      rewrite count_cons, count_nil, Hd. reflexivity.
    + apply (Hstep w1 []); auto.
      rewrite count_nil.
      destruct (Z.eqb_spec ((cmds + 1) mod 16) 0); [contradiction|reflexivity].
  - proj. rewrite !count_nil. unfold PERIODIC_CHECKPOINT.
    split; [exists (n :: next); reflexivity|]. do 2 (split; [reflexivity|]).
    split; [constructor|].
    split; [left; repeat split; simpl; auto; lia|].
    split; [apply Hbase; exact Hc|constructor].
Qed.

End NodeLoops.

(** ** The three maintenance passes *)

Section Passes.
Context {W : Type} {E : Environment W}.

(** A nonzero [int], as C tests it. *)
Lemma nonzero_cases (res : Z) :
  (res <> 0 /\ negb (res =? 0) = true) \/ (res = 0 /\ negb (res =? 0) = false).
Proof. destruct (Z.eqb_spec res 0); [right|left]; auto. Qed.

(** The flush pass: the enumeration, then either the warning or every
    filter of the chain and the release of the list. *)
Lemma flush_pass_spec (w : W) :
  let o := flush_pass w in
  outcome o = Ok tt /\
  exists res h rest,
    events o = Syslog LOG_INFO "Scheduled flush started." []
                 :: ListFilters res h :: rest /\
    (res <> 0 ->
       rest = [Syslog LOG_WARNING "Failed to list filters for flushing!" []]) /\
    (res = 0 -> exists body,
       rest = body ++ [CleanupList h] /\
       filters_touched body = head h /\
       count is_checkpoint body = Z.of_nat (List.length (head h)) / PERIODIC_CHECKPOINT /\
       Forall (fun e => is_loop_event e = true) body).
Proof.
  cbv zeta. unfold flush_pass. mstep.
  set (r := fst (env_list_filters (env_syslog w))).
  set (w1 := snd (env_list_filters (env_syslog w))).
  destruct (nonzero_cases (fst r)) as [[Hres Hb]|[Hres Hb]]; rewrite Hb.
  - mstep. split; [reflexivity|].
    exists (fst r), (snd r), [Syslog LOG_WARNING "Failed to list filters for flushing!" []].
    repeat split; auto. intros; contradiction.
  - destruct (flush_nodes_spec (head (snd r)) (cmds:=0) w1 ltac:(lia))
      as (Ho & Ht & Hk & Hf).
    (erewrite bind_ok by exact Ho). mstep. split; [reflexivity|].
    exists (fst r), (snd r),
      (events (flush_nodes (head (snd r)) 0 w1) ++ [CleanupList (snd r)]).
    repeat split; auto; [intros; contradiction|].
    intros _. eexists. repeat split; eauto.
Qed.

(** The cold-unmap pass: when the enumeration fails it goes on without
    a word. *)
Lemma unmap_pass_spec (w : W) :
  let o := unmap_pass w in
  outcome o = Ok tt /\
  exists res h rest,
    events o = Syslog LOG_INFO "Cold unmap started." []
                 :: ListColdFilters res h :: rest /\
    (res <> 0 -> rest = []) /\
    (res = 0 -> exists body,
       rest = Syslog LOG_INFO "Cold filter count: %d" [ArgInt (size h)]
                :: body ++ [CleanupList h] /\
       filters_touched body = head h /\
       count is_checkpoint body = Z.of_nat (List.length (head h)) / PERIODIC_CHECKPOINT /\
       Forall (fun e => is_loop_event e = true) body).
Proof.
  cbv zeta. unfold unmap_pass. mstep.
  set (r := fst (env_list_cold_filters (env_syslog w))).
  set (w1 := snd (env_list_cold_filters (env_syslog w))).
  destruct (nonzero_cases (fst r)) as [[Hres Hb]|[Hres Hb]]; rewrite Hb.
  - split; [reflexivity|].
    exists (fst r), (snd r), []. repeat split; auto. intros; contradiction.
  - mstep.
    destruct (unmap_nodes_spec (head (snd r)) (cmds:=0) (env_syslog w1) ltac:(lia))
      as (Ho & Ht & Hk & Hf).
    (erewrite bind_ok by exact Ho). mstep. split; [reflexivity|].
    eexists (fst r), (snd r), _.
    split; [reflexivity|]. split; [intros; contradiction|].
    intros _. eexists. repeat split; eauto.
Qed.

(** The memory-check pass.  [readings] are the resident-memory values the
    eviction loop compares with the safe mark: the first sample and then
    one sample after each eviction. *)
Lemma memory_check_pass_spec max_memory safe_memory (w : W) :
  let o := memory_check_pass max_memory safe_memory w in
  exists v0 rest,
    events o = GetCurrentRSS v0 :: rest /\
    (v0 <= max_memory -> rest = [] /\ outcome o = Ok tt) /\
    (v0 > max_memory -> exists res h rest',
       rest = Syslog LOG_INFO
                "Max memory exceeded. Unmapping filters to reclaim RAM." []
                :: ListFilters res h :: rest' /\
       (res <> 0 ->
          rest' = [Syslog LOG_WARNING "Failed to list filters for flushing!" []] /\
          outcome o = Ok tt) /\
       (res = 0 -> exists body,
          let readings := v0 :: samples body in
          (exists left, head h = filters_touched body ++ left) /\
          List.length (samples body) = List.length (filters_touched body) /\
          resampled (filter is_eviction_or_sample body) = true /\
          Forall (fun v => v > safe_memory) (removelast readings) /\
          (last readings 0 <= safe_memory /\
           rest' = body ++ [CleanupList h] /\ outcome o = Ok tt
           \/
           last readings 0 > safe_memory /\ filters_touched body = head h /\
           rest' = body /\ outcome o = Fault NullDereference) /\
          count is_checkpoint body =
            count is_filter_call body / PERIODIC_CHECKPOINT /\
          Forall (fun e => is_loop_event e = true) body)).
Proof.
  cbv zeta. unfold memory_check_pass. mstep.
  set (v0 := fst (let '(v, w') := env_get_current_rss w in (to_size_t v, w'))).
  set (w0 := snd (let '(v, w') := env_get_current_rss w in (to_size_t v, w'))).
  exists v0.
  destruct (Z.gtb_spec v0 max_memory) as [Hgt|Hle].
  - mstep.
    set (r := fst (env_list_filters (env_syslog w0))).
    set (w1 := snd (env_list_filters (env_syslog w0))).
    eexists. split; [reflexivity|]. split; [intros; lia|]. intros _.
    exists (fst r), (snd r).
    destruct (nonzero_cases (fst r)) as [[Hres Hb]|[Hres Hb]]; rewrite Hb.
    + mstep. eexists. split; [reflexivity|].
      split; [auto|intros; contradiction].
    + destruct (evict_nodes_spec safe_memory (head (snd r)) (cmds:=0) v0 w1 ltac:(lia))
        as (Hpre & Hlen & Hres' & Hall & Hend & Hk & Hf).
      set (m := evict_nodes safe_memory (head (snd r)) 0 v0 w1) in *.
      destruct Hend as [[Ho Hlast]|(Ho & Hlast & Ht)].
      * (erewrite bind_ok by exact Ho). mstep.
        eexists. split; [reflexivity|]. split; [intros; contradiction|].
        intros _. exists (events m). cbv zeta.
        repeat split; auto.
      * (erewrite bind_fault by exact Ho). proj.
        eexists. split; [reflexivity|]. split; [intros; contradiction|].
        intros _. exists (events m). cbv zeta.
        repeat split; auto.
  - mstep. exists []. repeat split; auto. intros; lia.
Qed.

End Passes.

(** ** One wake *)

Section Wakes.
Context {W : Type} {E : Environment W}.

Lemma wake_periodic k mx sf config :
  wake k mx sf config = periodic_wake (interval k config) (pass k mx sf).
Proof. destruct k; reflexivity. Qed.


Lemma interval_test_overflow seconds ticks (w : W) :
  INT_MAX < seconds * 4 ->
  interval_test ticks seconds w = ([], w, Fault SignedOverflow).
Proof.
  intros Hmax. unfold interval_test, SEC_TO_TICKS.
  assert (Hfit : fits_int (seconds * 4) = false).
  { unfold fits_int. apply andb_false_iff. right. apply Z.leb_gt. lia. }
  rewrite Hfit. reflexivity.
Qed.

(** A wake whose interval does not fit faults right after the
    checkpoint, before any maintenance. *)
Lemma wake_overflow k mx sf config ticks (w : W) :
  INT_MAX < interval k config * 4 ->
  wake k mx sf config ticks w =
  ([Usleep PERIODIC_TIME_USEC; ClientCheckpoint],
   env_client_checkpoint (env_usleep PERIODIC_TIME_USEC w),
   Fault SignedOverflow).
Proof.
  intros Hmax. rewrite wake_periodic. unfold periodic_wake. mstep.
  erewrite bind_failed by (apply interval_test_overflow; exact Hmax).
  reflexivity.
Qed.

(** Whatever the interval, a wake starts with the sleep and the
    checkpoint, and when it ends well the counter is one further. *)
Lemma wake_begins k mx sf config ticks (w : W) :
  let o := wake k mx sf config ticks w in
  (exists rest, events o = Usleep PERIODIC_TIME_USEC :: ClientCheckpoint :: rest) /\
  (forall t', outcome o = Ok t' -> t' = uincr ticks).
Proof.
  cbv zeta. rewrite wake_periodic. unfold periodic_wake. mstep.
  set (w2 := env_client_checkpoint (env_usleep PERIODIC_TIME_USEC w)).
  split; [eexists; reflexivity|].
  intros t'. rewrite bind_outcome.
  destruct (outcome (interval_test (uincr ticks) (interval k config) w2));
    [|discriminate].
  rewrite bind_outcome.
  match goal with |- context [outcome (?m ?x)] => destruct (outcome (m x)) end;
    [|discriminate].
  cbn. congruence.
Qed.



(** Only the memory-check pass can fault, and only by running off the
    end of the chain. *)
Lemma pass_outcome k mx sf (w : W) :
  outcome (pass k mx sf w) = Ok tt \/
  (k = MemoryCheckWorker /\ outcome (pass k mx sf w) = Fault NullDereference).
Proof.
  destruct k; cbn [pass].
  - left. apply flush_pass_spec.
  - left. apply unmap_pass_spec.
  - destruct (memory_check_pass_spec mx sf w) as (v0 & rest & Hev & Hle & Hgt).
    destruct (Z_le_gt_dec v0 mx) as [H|H].
    + left. apply Hle. exact H.
    + destruct (Hgt H) as (res & h & rest' & _ & Hfail & Hok).
      destruct (Z.eq_dec res 0) as [H0|H0].
      * destruct (Hok H0) as (body & _ & _ & _ & _ & Hend & _).
        destruct Hend as [(_ & _ & Ho)|(_ & _ & _ & Ho)]; auto.
      * left. apply Hfail. exact H0.
Qed.

End Wakes.

(** ** The loop *)

Section Loop.
Context {W : Type} {E : Environment W}.
Variable body : Z -> M W Z.
Hypothesis body_ticks :
  forall t w t', outcome (body t w) = Ok t' -> t' = uincr t.

Lemma ticks_after_succ n t : ticks_after n (uincr t) = ticks_after (S n) t.
Proof. unfold ticks_after. symmetry. apply Nat.iter_succ_r. Qed.

(** Every entry of the list of wakes is either the loop test that ended
    the loop, or the loop test followed by the body run at the tick count
    of its position. *)
Lemma while_nth fuel : forall t (w : W) n l,
  nth_error (fst (fst (while_should_run body fuel t w))) n = Some l ->
  exists v w',
    (v = 0 /\ l = [LoadShouldRun v]) \/
    (v <> 0 /\ l = LoadShouldRun v :: events (body (ticks_after n t) w')).
Proof.
  induction fuel as [|fuel IH]; intros t w n l; cbn [while_should_run].
  - destruct n; discriminate.
  - destruct (env_should_run w) as [v w1].
    destruct (Z.eqb_spec v 0) as [Hv|Hv].
    + cbn [fst]. destruct n as [|[|n]]; try discriminate.
      intros [= <-]. exists v, w1. left. auto.
    + rewrite (triple_eta (body t w1)).
      destruct (outcome (body t w1)) as [t'|x] eqn:Ho.
      * apply body_ticks in Ho. subst t'.
        specialize (IH (uincr t) (world (body t w1))).
        destruct (while_should_run body fuel (uincr t) (world (body t w1)))
          as [[ls w3] st].
        cbn [fst] in *. destruct n as [|n]; cbn [nth_error].
        -- intros [= <-]. exists v, w1. right. auto.
        -- intros Hn. destruct (IH n l Hn) as (v' & w' & H).
           exists v', w'. rewrite <- ticks_after_succ. exact H.
      * cbn [fst]. destruct n as [|[|n]]; try discriminate.
        intros [= <-]. exists v, w1. right. auto.
Qed.

End Loop.

Section Threads.
Context {W : Type} {E : Environment W}.


(** The loop of each thread is [while_should_run] over its wake, from a
    counter of zero, after the thread's first checkpoint. *)
Lemma thread_main_loop k config fuel (w : W) :
  exists mx sf w0,
    In ClientCheckpoint (startup (thread_main k config fuel w)) /\
    wakes (thread_main k config fuel w) =
      fst (fst (while_should_run (wake k mx sf config) fuel 0 w0)) /\
    exit (thread_main k config fuel w) =
      snd (while_should_run (wake k mx sf config) fuel 0 w0).
Proof.
  destruct k; cbn [thread_main wake];
    unfold flush_thread_main, unmap_thread_main, memory_check_thread_main, thread;
    prims; unfold bind, call_, call, ret.
  - exists 0, 0, (env_syslog (env_client_checkpoint w)). cbn. auto.
  - exists 0, 0, (env_syslog (env_client_checkpoint w)). cbn. auto.
  - destruct (env_get_memory_size w) as [v w1]. cbn.
    eexists _, _, _. split; [|split; reflexivity]. auto.
Qed.

Lemma wake_ticks k mx sf config :
  forall t (w : W) t', outcome (wake k mx sf config t w) = Ok t' -> t' = uincr t.
Proof. intros t w t'. apply wake_begins. Qed.


(** A loop that is still running went through all its wakes, and its
    counter moved once in each. *)
Lemma while_running (body : Z -> M W Z) fuel : forall t (w : W) t',
  (forall t w t', outcome (body t w) = Ok t' -> t' = uincr t) ->
  snd (while_should_run body fuel t w) = Running t' ->
  List.length (fst (fst (while_should_run body fuel t w))) = fuel /\
  t' = ticks_after fuel t.
Proof.
  induction fuel as [|fuel IH]; intros t w t' Hb; cbn [while_should_run].
  - cbn. intros [= <-]. auto.
  - destruct (env_should_run w) as [v w1].
    destruct (Z.eqb_spec v 0) as [Hv|Hv]; [discriminate|].
    rewrite (triple_eta (body t w1)).
    destruct (outcome (body t w1)) as [t1|y] eqn:Ho; [|discriminate].
    apply Hb in Ho as Ht. subst t1.
    specialize (IH (uincr t) (world (body t w1)) t' Hb).
    destruct (while_should_run body fuel (uincr t) (world (body t w1)))
      as [[ls w3] st].
    cbn [fst snd] in *. intros Hst. destruct (IH Hst) as [Hlen Ht'].
    cbn [List.length]. rewrite Hlen. split; [reflexivity|].
    unfold ticks_after in *. rewrite Nat.iter_succ_r. exact Ht'.
Qed.

End Threads.

(** * Theorems *)

Section Claims.
Context {W : Type} {E : Environment W}.

(** ** Starting the threads *)

(** C4.  Each of [start_flush_thread], [start_cold_unmap_thread] and
    [start_memory_check_thread] returns 1 and creates its thread exactly
    when the interval it is configured with is strictly positive; with an
    interval of zero or less it returns 0, calls nothing and leaves the
    world as it was. *)
Theorem start_thread_iff_interval_positive k config (w : W) :
  let o := start_thread k config w in
  (0 < interval k config <-> outcome o = Ok 1) /\
  (0 < interval k config <-> events o = [PthreadCreate k config]) /\
  (interval k config <= 0 <-> o = ([], w, Ok 0)).
Proof.
  cbv zeta.
  assert (H : start_thread k config w =
              if interval k config <=? 0 then ([], w, Ok 0)
              else ([PthreadCreate k config], env_pthread_create k config w, Ok 1)).
  { destruct k; cbn [start_thread interval];
      unfold start_flush_thread, start_cold_unmap_thread,
        start_memory_check_thread;
      match goal with |- context [?a <=? 0] => destruct (a <=? 0) end;
      try reflexivity; mstep; reflexivity. }
  rewrite H. destruct (Z.leb_spec (interval k config) 0) as [Hle|Hgt]; proj.
  - repeat split; intros; try lia; try discriminate; auto.
  - repeat split; intros; try lia; try discriminate; auto.
Qed.

(** ** The checkpoint of every wake *)

(** C5.  In every run of every thread, whatever the configured interval,
    each pass through the loop that gets past the loop test sleeps and
    then calls [filtmgr_client_checkpoint], before the interval is looked
    at: also on wakes without a maintenance action and on the wake after
    a failed enumeration. *)
Theorem checkpoint_on_every_wake k config fuel (w : W) :
  Forall checkpointed (wakes (thread_main k config fuel w)).
Proof.
  destruct (thread_main_loop k config fuel w) as (mx & sf & w0 & _ & Hw & _).
  rewrite Hw. apply Forall_forall. intros l Hin.
  apply In_nth_error in Hin. destruct Hin as [n Hn].
  apply while_nth in Hn; [|apply wake_ticks].
  destruct Hn as (v & w' & [[Hv Hl]|[Hv Hl]]); subst l.
  - left. rewrite Hv. reflexivity.
  - right. destruct (wake_begins k mx sf config (ticks_after n 0) w')
      as [[rest Hev] _].
    exists v, rest. rewrite Hev. auto.
Qed.

(** ** Checkpoints inside a pass *)

Lemma count_loop_events (p : event -> bool) body :
  (forall e, is_loop_event e = true -> p e = false) ->
  Forall (fun e => is_loop_event e = true) body -> count p body = 0.
Proof.
  intros Hp Hf. induction Hf as [|e l He _ IH]; [reflexivity|].
  rewrite count_cons, (Hp e He), IH. reflexivity.
Qed.

(** C7.  A maintenance pass that makes [n] calls on filters (flushes,
    unmaps or evictions) makes exactly [n / 16] checkpoint calls of its
    own; the flush and unmap loops make one call per node of the chain,
    so over a chain of 33 filters they checkpoint twice. *)
Theorem checkpoints_in_a_pass k mx sf (w : W) :
  count is_checkpoint (events (pass k mx sf w)) =
    count is_filter_call (events (pass k mx sf w)) / PERIODIC_CHECKPOINT
  /\
  (forall node,
     count is_filter_call (events (flush_nodes node 0 w)) = Z.of_nat (List.length node) /\
     count is_checkpoint (events (flush_nodes node 0 w)) =
       Z.of_nat (List.length node) / PERIODIC_CHECKPOINT /\
     count is_filter_call (events (unmap_nodes node 0 w)) = Z.of_nat (List.length node) /\
     count is_checkpoint (events (unmap_nodes node 0 w)) =
       Z.of_nat (List.length node) / PERIODIC_CHECKPOINT)
  /\
  (forall node, List.length node = 33%nat ->
     count is_checkpoint (events (flush_nodes node 0 w)) = 2 /\
     count is_checkpoint (events (unmap_nodes node 0 w)) = 2).
Proof.
  assert (Hnodes : forall node,
     count is_filter_call (events (flush_nodes node 0 w)) = Z.of_nat (List.length node) /\
     count is_checkpoint (events (flush_nodes node 0 w)) =
       Z.of_nat (List.length node) / PERIODIC_CHECKPOINT /\
     count is_filter_call (events (unmap_nodes node 0 w)) = Z.of_nat (List.length node) /\
     count is_checkpoint (events (unmap_nodes node 0 w)) =
       Z.of_nat (List.length node) / PERIODIC_CHECKPOINT).
  { intros node.
    destruct (flush_nodes_spec node (cmds:=0) w ltac:(lia)) as (_ & Ht & Hk & _).
    destruct (unmap_nodes_spec node (cmds:=0) w ltac:(lia)) as (_ & Ht' & Hk' & _).
    rewrite <- !filters_touched_length, Ht, Ht'. auto. }
  split; [|split; [exact Hnodes|]].
  - destruct k; cbn [pass].
    + destruct (flush_pass_spec w) as (_ & res & h & rest & Hev & Hfail & Hok).
      rewrite Hev, !count_cons. cbn [is_checkpoint is_filter_call].
      destruct (Z.eq_dec res 0) as [H0|H0].
      * destruct (Hok H0) as (body & -> & Ht & Hk & Hf).
        rewrite !count_app, !count_cons, !count_nil.
        cbn [is_checkpoint is_filter_call].
        rewrite ?Z.add_0_l, ?Z.add_0_r.
        rewrite Hk, <- filters_touched_length, Ht. reflexivity.
      * rewrite (Hfail H0). reflexivity.
    + destruct (unmap_pass_spec w) as (_ & res & h & rest & Hev & Hfail & Hok).
      rewrite Hev, !count_cons. cbn [is_checkpoint is_filter_call].
      destruct (Z.eq_dec res 0) as [H0|H0].
      * destruct (Hok H0) as (body & -> & Ht & Hk & Hf).
        rewrite !count_cons, !count_app, !count_cons, !count_nil.
        cbn [is_checkpoint is_filter_call].
        rewrite ?Z.add_0_l, ?Z.add_0_r.
        rewrite Hk, <- filters_touched_length, Ht. reflexivity.
      * rewrite (Hfail H0). reflexivity.
    + destruct (memory_check_pass_spec mx sf w) as (v0 & rest & Hev & Hle & Hgt).
      rewrite Hev, !count_cons. cbn [is_checkpoint is_filter_call].
      destruct (Z_le_gt_dec v0 mx) as [H|H].
      * destruct (Hle H) as [-> _]. reflexivity.
      * destruct (Hgt H) as (res & h & rest' & -> & Hfail & Hok).
        rewrite !count_cons. cbn [is_checkpoint is_filter_call].
        destruct (Z.eq_dec res 0) as [H0|H0].
        -- destruct (Hok H0) as (body & _ & _ & _ & _ & Hend & Hk & _).
           destruct Hend as [(_ & -> & _)|(_ & _ & -> & _)].
           ++ rewrite !count_app, !count_cons, !count_nil.
              cbn [is_checkpoint is_filter_call].
              rewrite ?Z.add_0_l, ?Z.add_0_r. exact Hk.
           ++ rewrite ?Z.add_0_l, ?Z.add_0_r. exact Hk.
        -- destruct (Hfail H0) as [-> _]. reflexivity.
  - intros node Hlen. destruct (Hnodes node) as (_ & Hf & _ & Hu).
    rewrite Hf, Hu, Hlen. split; reflexivity.
Qed.



(** ** The memory-pressure pass *)


End Claims.

(** ** The interval test *)

Section Interval.
Context {W : Type} {E : Environment W}.






End Interval.

(** ** Failed enumerations and cancellation *)

Section Cycles.
Context {W : Type} {E : Environment W}.

(** The interval test logs nothing or one read of the flag, and says
    yes only after reading a nonzero flag. *)
Lemma interval_test_shape ticks seconds (w : W) :
  let o := interval_test ticks seconds w in
  (events o = [] /\ world o = w /\ outcome o <> Ok true) \/
  (events o = [LoadShouldRun (fst (env_should_run w))] /\
   world o = snd (env_should_run w) /\
   outcome o = Ok (negb (fst (env_should_run w) =? 0))).
Proof.
  cbv zeta. unfold interval_test, SEC_TO_TICKS.
  destruct (fits_int (seconds * 4)).
  - rewrite bind_ret.
    destruct (to_unsigned (seconds * 4) =? 0); [left; cbn; repeat split; discriminate|].
    destruct (ticks mod to_unsigned (seconds * 4) =? 0).
    + right. mstep. auto.
    + left. cbn. repeat split; discriminate.
  - left. cbn. repeat split; discriminate.
Qed.

(** A wake, whatever its interval: sleep, checkpoint, and then nothing,
    or a read of a zero flag, or a read of a nonzero flag and the pass. *)
Lemma wake_shape k mx sf config ticks (w : W) :
  let o := wake k mx sf config ticks w in
  (exists l, events o = Usleep PERIODIC_TIME_USEC :: ClientCheckpoint :: l /\
     (l = [] \/ l = [LoadShouldRun 0] /\ outcome o = Ok (uincr ticks)))
  \/
  (exists v w', v <> 0 /\
     events o = Usleep PERIODIC_TIME_USEC :: ClientCheckpoint :: LoadShouldRun v
                  :: events (pass k mx sf w') /\
     outcome o = match outcome (pass k mx sf w') with
                 | Ok _ => Ok (uincr ticks)
                 | Fault x => Fault x
                 end).
Proof.
  cbv zeta. rewrite wake_periodic. unfold periodic_wake. mstep.
  set (w2 := env_client_checkpoint (env_usleep PERIODIC_TIME_USEC w)).
  rewrite bind_events, bind_outcome.
  destruct (interval_test_shape (uincr ticks) (interval k config) w2)
    as [(He & Hw & Ho)|(He & Hw & Ho)]; rewrite He, Hw.
  - left. exists []. split; [|left; reflexivity].
    destruct (outcome (interval_test (uincr ticks) (interval k config) w2))
      as [[|]|x]; try reflexivity. contradiction.
  - rewrite Ho.
    destruct (nonzero_cases (fst (env_should_run w2))) as [[Hv Hb]|[Hv Hb]];
      rewrite Hb.
    + right. exists (fst (env_should_run w2)), (snd (env_should_run w2)).
      split; [exact Hv|]. rewrite bind_events, bind_outcome.
      destruct (outcome (pass k mx sf (snd (env_should_run w2)))) as [[]|x];
        cbn; rewrite ?app_nil_r; auto.
    + left. exists [LoadShouldRun 0]. rewrite Hv. cbn. auto.
Qed.

(** What the passes log, by kind of event. *)
Lemma pass_log k mx sf (w : W) :
  let l := events (pass k mx sf w) in
  count is_flag_read l = 0 /\
  (enumeration_failed l ->
     count is_filter_call l = 0 /\ count is_release l = 0 /\
     outcome (pass k mx sf w) = Ok tt /\
     logged_after_enumeration l =
       match k with ColdUnmapWorker => false | _ => true end /\
     count is_warning l =
       match k with ColdUnmapWorker => 0 | _ => 1 end) /\
  (forall h, In (ListFilters 0 h) l \/ In (ListColdFilters 0 h) l ->
     (exists left, head h = filters_touched l ++ left) /\
     (outcome (pass k mx sf w) = Ok tt -> count is_release l = 1) /\
     (k <> MemoryCheckWorker ->
        filters_touched l = head h /\ outcome (pass k mx sf w) = Ok tt)).
Proof.
  assert (Hin : forall e body, Forall (fun e => is_loop_event e = true) body ->
                  In e body -> is_loop_event e = true).
  { intros e body Hf. apply (proj1 (Forall_forall _ _) Hf). }
  assert (Hnf : forall body, Forall (fun e => is_loop_event e = true) body ->
                  count is_flag_read body = 0 /\ count is_release body = 0).
  { intros body Hf. split; apply count_loop_events; auto;
      intros [] He; try discriminate; try reflexivity;
      destruct p; try discriminate; reflexivity. }
  cbv zeta. destruct k; cbn [pass].
  - destruct (flush_pass_spec w) as (Ho & res & h & rest & Hev & Hfail & Hok).
    rewrite Hev. destruct (Z.eq_dec res 0) as [H0|H0].
    + destruct (Hok H0) as (body & -> & Ht & Hk & Hf).
      destruct (Hnf body Hf) as [Hfr Hrl]. subst res.
      split; [|split].
      * rewrite !count_cons, count_app, Hfr. reflexivity.
      * intros (res & h' & Hres & [Hi|Hi]).
        -- destruct Hi as [Hi|[Hi|Hi]]; try discriminate.
           ++ injection Hi as <- <-. contradiction.
           ++ apply in_app_or in Hi. destruct Hi as [Hi|[Hi|[]]]; try discriminate.
              apply (Hin _ _ Hf) in Hi. discriminate.
        -- destruct Hi as [Hi|[Hi|Hi]]; try discriminate.
           apply in_app_or in Hi. destruct Hi as [Hi|[Hi|[]]]; try discriminate.
           apply (Hin _ _ Hf) in Hi. discriminate.
      * intros h' [Hi|Hi].
        -- destruct Hi as [Hi|[Hi|Hi]]; try discriminate.
           ++ injection Hi as <-.
              cbn [filters_touched]. rewrite filters_touched_app, Ht.
              cbn [filters_touched]. rewrite app_nil_r.
              split; [exists []; rewrite app_nil_r; reflexivity|].
              split; [|auto].
              intros _. rewrite !count_cons, count_app, Hrl. reflexivity.
           ++ apply in_app_or in Hi. destruct Hi as [Hi|[Hi|[]]]; try discriminate.
              apply (Hin _ _ Hf) in Hi. discriminate.
        -- destruct Hi as [Hi|[Hi|Hi]]; try discriminate.
           apply in_app_or in Hi. destruct Hi as [Hi|[Hi|[]]]; try discriminate.
           apply (Hin _ _ Hf) in Hi. discriminate.
    + rewrite (Hfail H0). split; [reflexivity|]. split.
      * intros _. repeat split; auto.
      * intros h' [Hi|Hi]; destruct Hi as [Hi|[Hi|[Hi|[]]]]; try discriminate.
        injection Hi as -> _. contradiction.
  - destruct (unmap_pass_spec w) as (Ho & res & h & rest & Hev & Hfail & Hok).
    rewrite Hev. destruct (Z.eq_dec res 0) as [H0|H0].
    + destruct (Hok H0) as (body & -> & Ht & Hk & Hf).
      destruct (Hnf body Hf) as [Hfr Hrl]. subst res.
      split; [|split].
      * rewrite !count_cons, count_app, Hfr. reflexivity.
      * intros (res & h' & Hres & [Hi|Hi]).
        -- destruct Hi as [Hi|[Hi|[Hi|Hi]]]; try discriminate.
           apply in_app_or in Hi. destruct Hi as [Hi|[Hi|[]]]; try discriminate.
           apply (Hin _ _ Hf) in Hi. discriminate.
        -- destruct Hi as [Hi|[Hi|[Hi|Hi]]]; try discriminate.
           ++ injection Hi as <- <-. contradiction.
           ++ apply in_app_or in Hi. destruct Hi as [Hi|[Hi|[]]]; try discriminate.
              apply (Hin _ _ Hf) in Hi. discriminate.
      * intros h' [Hi|Hi].
        -- destruct Hi as [Hi|[Hi|[Hi|Hi]]]; try discriminate.
           apply in_app_or in Hi. destruct Hi as [Hi|[Hi|[]]]; try discriminate.
           apply (Hin _ _ Hf) in Hi. discriminate.
        -- destruct Hi as [Hi|[Hi|[Hi|Hi]]]; try discriminate.
           ++ injection Hi as <-.
              cbn [filters_touched]. rewrite filters_touched_app, Ht.
              cbn [filters_touched]. rewrite app_nil_r.
              split; [exists []; rewrite app_nil_r; reflexivity|].
              split; [|auto].
              intros _. rewrite !count_cons, count_app, Hrl. reflexivity.
           ++ apply in_app_or in Hi. destruct Hi as [Hi|[Hi|[]]]; try discriminate.
              apply (Hin _ _ Hf) in Hi. discriminate.
    + rewrite (Hfail H0). split; [reflexivity|]. split.
      * intros _. repeat split; auto.
      * intros h' [Hi|Hi]; destruct Hi as [Hi|[Hi|[]]]; try discriminate.
        injection Hi as -> _. contradiction.
  - destruct (memory_check_pass_spec mx sf w) as (v0 & rest & Hev & Hle & Hgt).
    rewrite Hev. destruct (Z_le_gt_dec v0 mx) as [H|H].
    + destruct (Hle H) as [-> Ho]. split; [reflexivity|]. split.
      * intros (res & h' & Hres & [Hi|Hi]); destruct Hi as [Hi|[]]; discriminate.
      * intros h' [Hi|Hi]; destruct Hi as [Hi|[]]; discriminate.
    + destruct (Hgt H) as (res & h & rest' & -> & Hfail & Hok).
      destruct (Z.eq_dec res 0) as [H0|H0].
      * destruct (Hok H0) as (body & Hpre & _ & _ & _ & Hend & _ & Hf).
        destruct (Hnf body Hf) as [Hfr Hrl]. subst res.
        assert (Hbody : rest' = body ++ [CleanupList h] /\
                        outcome (memory_check_pass mx sf w) = Ok tt \/
                        rest' = body /\
                        outcome (memory_check_pass mx sf w) = Fault NullDereference).
        { destruct Hend as [(_ & Hr & Ho)|(_ & _ & Hr & Ho)]; auto. }
        clear Hend.
        assert (Hnot : forall e, is_enumeration e = true -> ~ In e rest').
        { intros e He Hi.
          destruct Hbody as [[-> _]|[-> _]].
          - apply in_app_or in Hi. destruct Hi as [Hi|[Hi|[]]].
            + apply (Hin _ _ Hf) in Hi. destruct e; discriminate.
            + subst e. discriminate.
          - apply (Hin _ _ Hf) in Hi. destruct e; discriminate. }
        assert (Htouch : filters_touched rest' = filters_touched body).
        { destruct Hbody as [[-> _]|[-> _]]; [|reflexivity].
          rewrite filters_touched_app. cbn. apply app_nil_r. }
        split; [|split].
        -- rewrite !count_cons. cbn [is_flag_read].
           destruct Hbody as [[-> _]|[-> _]];
             rewrite ?count_app, ?count_cons, ?count_nil, Hfr; reflexivity.
        -- intros (res & h' & Hres & [Hi|Hi]);
             destruct Hi as [Hi|[Hi|[Hi|Hi]]]; try discriminate.
           ++ injection Hi as <- _. contradiction.
           ++ exfalso. eapply Hnot; [|exact Hi]; reflexivity.
           ++ exfalso. eapply Hnot; [|exact Hi]; reflexivity.
        -- intros h' [Hi|Hi]; destruct Hi as [Hi|[Hi|[Hi|Hi]]]; try discriminate.
           ++ injection Hi as <-. cbn [filters_touched]. rewrite Htouch.
              split; [exact Hpre|]. split; [|intros Hk; contradiction].
              intros Ho. destruct Hbody as [[-> _]|[_ Hx]].
              ** rewrite !count_cons, count_app, Hrl. reflexivity.
              ** rewrite Hx in Ho. discriminate.
           ++ exfalso. eapply Hnot; [|exact Hi]; reflexivity.
           ++ exfalso. eapply Hnot; [|exact Hi]; reflexivity.
      * destruct (Hfail H0) as [-> Ho]. split; [reflexivity|]. split.
        -- intros _. repeat split; auto.
        -- intros h' [Hi|Hi]; destruct Hi as [Hi|[Hi|[Hi|[Hi|[]]]]]; try discriminate.
           injection Hi as -> _. contradiction.
Qed.

End Cycles.

(** ** The run around one wake *)

Section Around.
Context {W : Type} {E : Environment W}.
Variable body : Z -> M W Z.

(** From any entry on, the list of wakes is again a run of the loop. *)
Lemma while_suffix pre : forall fuel t (w : W) l post,
  fst (fst (while_should_run body fuel t w)) = pre ++ l :: post ->
  exists fuel1 t1 w1,
    fst (fst (while_should_run body fuel1 t1 w1)) = l :: post /\
    snd (while_should_run body fuel1 t1 w1) = snd (while_should_run body fuel t w).
Proof.
  induction pre as [|p pre IH]; intros fuel t w l post.
  - intros H. exists fuel, t, w. auto.
  - destruct fuel as [|fuel]; cbn [while_should_run]; [discriminate|].
    destruct (env_should_run w) as [v w1].
    destruct (v =? 0).
    + cbn. intros [= _ H]. destruct pre; discriminate.
    + destruct (body t w1) as [[l1 w2] [t'|x]].
      * specialize (IH fuel t' w2 l post).
        destruct (while_should_run body fuel t' w2) as [[ls w3] st].
        cbn [fst snd app] in *. intros [= _ H]. exact (IH H).
      * cbn. intros [= _ H]. destruct pre; discriminate.
Qed.

(** The first entry of a run, and what follows it. *)
Lemma while_head fuel t (w : W) l post :
  fst (fst (while_should_run body fuel t w)) = l :: post ->
  (l = [LoadShouldRun 0] /\ post = [] /\
   snd (while_should_run body fuel t w) = Returned)
  \/
  exists v w1 fuel', v <> 0 /\
    l = LoadShouldRun v :: events (body t w1) /\
    ((exists x, outcome (body t w1) = Fault x /\ post = [] /\
        snd (while_should_run body fuel t w) = Crashed x)
     \/
     (exists t', outcome (body t w1) = Ok t' /\
        post = fst (fst (while_should_run body fuel' t' (world (body t w1)))) /\
        snd (while_should_run body fuel t w) =
          snd (while_should_run body fuel' t' (world (body t w1))))).
Proof.
  destruct fuel as [|fuel]; cbn [while_should_run]; [discriminate|].
  destruct (env_should_run w) as [v w1].
  destruct (Z.eqb_spec v 0) as [Hv|Hv].
  - cbn. intros [= <- <-]. left. rewrite Hv. auto.
  - rewrite (triple_eta (body t w1)).
    destruct (outcome (body t w1)) as [t'|x] eqn:Ho.
    + destruct (while_should_run body fuel t' (world (body t w1)))
        as [[ls w3] st] eqn:Hw.
      cbn. intros [= <- <-]. right. exists v, w1, fuel.
      split; [exact Hv|]. split; [reflexivity|]. right.
      exists t'. rewrite Hw. auto.
    + cbn. intros [= <- <-]. right. exists v, w1, fuel.
      split; [exact Hv|]. split; [reflexivity|]. left. exists x. auto.
Qed.

Lemma while_nil fuel t (w : W) :
  fst (fst (while_should_run body fuel t w)) = [] ->
  snd (while_should_run body fuel t w) = Running t.
Proof.
  destruct fuel as [|fuel]; cbn [while_should_run]; [reflexivity|].
  destruct (env_should_run w) as [v w1]. destruct (v =? 0); [discriminate|].
  destruct (body t w1) as [[l1 w2] [t'|x]]; [|discriminate].
  destruct (while_should_run body fuel t' w2) as [[ls w3] st]. discriminate.
Qed.

End Around.

Section Entries.
Context {W : Type} {E : Environment W}.

Lemma count_zero_not_in p l e : count p l = 0 -> In e l -> p e = false.
Proof.
  induction l as [|a l IH]; intros Hc Hin; [destruct Hin|].
  rewrite count_cons in Hc. pose proof (count_nonneg p l).
  destruct Hin as [->|Hin].
  - destruct (p e); [lia|reflexivity].
  - apply IH; [|exact Hin]. destruct (p a); lia.
Qed.

(** An entry of the list of wakes of a thread, whatever the interval. *)
Lemma entry_shape k config fuel (w : W) pre l post :
  wakes (thread_main k config fuel w) = pre ++ l :: post ->
  let r := thread_main k config fuel w in
  (l = [LoadShouldRun 0] /\ post = [] /\ exit r = Returned)
  \/
  (exists v0 l0, v0 <> 0 /\
     l = LoadShouldRun v0 :: Usleep PERIODIC_TIME_USEC :: ClientCheckpoint :: l0 /\
     (l0 = [] \/
      l0 = [LoadShouldRun 0] /\
      (post = [] /\ (exists t, exit r = Running t) \/
       exists l1 post1, post = l1 :: post1 /\
         (l1 = [LoadShouldRun 0] /\ post1 = [] /\ exit r = Returned \/
          exists v1 rest, v1 <> 0 /\ l1 = LoadShouldRun v1 :: rest))))
  \/
  (exists v0 v mx sf w', v0 <> 0 /\ v <> 0 /\
     l = LoadShouldRun v0 :: Usleep PERIODIC_TIME_USEC :: ClientCheckpoint
           :: LoadShouldRun v :: events (pass k mx sf w') /\
     (outcome (pass k mx sf w') = Ok tt ->
      post = [] -> exists t, exit r = Running t)).
Proof.
  intros Hw. cbv zeta.
  destruct (thread_main_loop k config fuel w) as (mx & sf & w0 & _ & Hw' & He).
  rewrite Hw' in Hw. rewrite He. clear Hw' He.
  apply while_suffix in Hw. destruct Hw as (fuel1 & t1 & w1 & Hw & <-).
  apply while_head in Hw.
  destruct Hw as [(Hl & Hp & Hx)|(v0 & w2 & fuel' & Hv0 & Hl & Hrest)];
    [left; auto|right].
  destruct (wake_shape k mx sf config t1 w2)
    as [(l0 & Hev & Hl0)|(v & w' & Hv & Hev & Ho)]; rewrite Hev in Hl.
  - left. exists v0, l0. split; [exact Hv0|]. split; [exact Hl|].
    destruct Hl0 as [Hl0|[Hl0 Ho]]; [left; exact Hl0|right].
    split; [exact Hl0|].
    destruct Hrest as [(x & Hf & _)|(t' & Hok & Hp & Hx)];
      [rewrite Hf in Ho; discriminate|].
    rewrite Hx. destruct post as [|l1 post1].
    + left. split; [reflexivity|]. eexists. apply while_nil. auto.
    + right. exists l1, post1. split; [reflexivity|].
      symmetry in Hp. apply while_head in Hp.
      destruct Hp as [(Hl1 & Hp1 & Hr)|(v1 & w3 & _ & Hv1 & Hl1 & _)].
      * left. auto.
      * right. eauto.
  - right. exists v0, v, mx, sf, w'. repeat split; auto.
    intros Hok Hpost. rewrite Hok in Ho.
    destruct Hrest as [(x & Hf & _)|(t' & _ & Hp & Hx)];
      [rewrite Hf in Ho; discriminate|].
    rewrite Hx. eexists. apply while_nil. rewrite <- Hp. exact Hpost.
Qed.

End Entries.

Section Cancellation.
Context {W : Type} {E : Environment W}.

(** An entry that holds an enumeration is a wake that ran its pass. *)
Lemma entry_with_enumeration k config fuel (w : W) pre l post e :
  wakes (thread_main k config fuel w) = pre ++ l :: post ->
  In e l -> is_enumeration e = true ->
  exists v0 v mx sf w', v0 <> 0 /\ v <> 0 /\
    l = LoadShouldRun v0 :: Usleep PERIODIC_TIME_USEC :: ClientCheckpoint
          :: LoadShouldRun v :: events (pass k mx sf w') /\
    In e (events (pass k mx sf w')) /\
    (outcome (pass k mx sf w') = Ok tt ->
     post = [] -> exists t, exit (thread_main k config fuel w) = Running t).
Proof.
  intros Hw Hin He.
  destruct (entry_shape k config fuel w pre l post Hw)
    as [(Hl & _)|[(v0 & l0 & _ & Hl & Hl0)|(v0 & v & mx & sf & w' & Hv0 & Hv & Hl & Hgo)]].
  - subst l. destruct Hin as [<-|[]]. discriminate.
  - subst l. destruct Hl0 as [->|[-> _]];
      repeat (destruct Hin as [<-|Hin]; [discriminate|]); destruct Hin.
  - exists v0, v, mx, sf, w'. repeat split; auto.
    subst l. repeat (destruct Hin as [<-|Hin]; [discriminate|]). exact Hin.
Qed.

(** The four events before the pass of a wake are no calls of the filter
    manager. *)
Lemma wake_prefix_counts (p : event -> bool) v0 v l :
  p (LoadShouldRun v0) = false -> p (Usleep PERIODIC_TIME_USEC) = false ->
  p ClientCheckpoint = false -> p (LoadShouldRun v) = false ->
  count p (LoadShouldRun v0 :: Usleep PERIODIC_TIME_USEC :: ClientCheckpoint
             :: LoadShouldRun v :: l) = count p l.
Proof. intros H1 H2 H3 H4. rewrite !count_cons, H1, H2, H3, H4. lia. Qed.

(** What a failed enumeration does.  In every run of every thread, a
    wake whose enumeration fails makes no flush, unmap or flush-and-unmap
    call and no release; the flush thread and the memory-check thread
    then write one warning to the log, the cold-unmap thread writes
    nothing after the failure; the thread stays in its loop, and in
    every later wake whose enumeration succeeds the filters are called
    on in the order of the chain (all of them, with one release, in the
    flush and cold-unmap threads). *)
Theorem failed_enumeration_skips_the_cycle k config fuel (w : W) pre l post :
  wakes (thread_main k config fuel w) = pre ++ l :: post ->
  enumeration_failed l ->
  count is_filter_call l = 0 /\
  count is_release l = 0 /\
  logged_after_enumeration l =
    match k with ColdUnmapWorker => false | _ => true end /\
  count is_warning l = match k with ColdUnmapWorker => 0 | _ => 1 end /\
  (post = [] -> exists t, exit (thread_main k config fuel w) = Running t) /\
  (forall l' h, In l' post ->
     In (ListFilters 0 h) l' \/ In (ListColdFilters 0 h) l' ->
     (exists left, head h = filters_touched l' ++ left) /\
     (k <> MemoryCheckWorker ->
        filters_touched l' = head h /\ count is_release l' = 1)) /\
  failure_rule (W:=W) FlushWorker /\
  failure_rule (W:=W) MemoryCheckWorker.
Proof.
  intros Hw Hfail.
  assert (Hrule : forall k', k' <> ColdUnmapWorker -> failure_rule (W:=W) k').
  { intros k' Hk' mx sf w'. cbv zeta. intros Hf'.
    destruct (pass_log k' mx sf w') as (_ & Hf & _).
    destruct (Hf Hf') as (Hc & Hr & Ho & Hlog & _).
    repeat split; auto. rewrite Hlog. destruct k'; auto. }
  assert (Htail := conj (Hrule FlushWorker ltac:(discriminate))
                        (Hrule MemoryCheckWorker ltac:(discriminate))).
  clear Hrule.
  assert (He : exists e, In e l /\ is_enumeration e = true /\
                 forall p, In e p -> enumeration_failed p).
  { destruct Hfail as (res & h & Hres & [Hi|Hi]);
      eexists; (split; [exact Hi|]); (split; [reflexivity|]);
      intros p Hp; exists res, h; auto. }
  destruct He as (e & Hin & He & Hp).
  destruct (entry_with_enumeration k config fuel w pre l post e Hw Hin He)
    as (v0 & v & mx & sf & w' & Hv0 & Hv & Hl & Hine & Hgo).
  destruct (pass_log k mx sf w') as (_ & Hf & _).
  destruct (Hf (Hp _ Hine)) as (Hc & Hr & Ho & Hlog & Hwarn).
  subst l. rewrite !wake_prefix_counts by reflexivity.
  split; [exact Hc|]. split; [exact Hr|]. split; [exact Hlog|].
  split; [exact Hwarn|].
  split; [exact (Hgo Ho)|]. split; [|exact Htail].
  intros l' h Hin' Hsucc.
  apply in_split in Hin'. destruct Hin' as (p1 & p2 & Hpost).
  assert (Hw2 : wakes (thread_main k config fuel w) =
                (pre ++ (LoadShouldRun v0 :: Usleep PERIODIC_TIME_USEC
                   :: ClientCheckpoint :: LoadShouldRun v
                   :: events (pass k mx sf w')) :: p1) ++ l' :: p2).
  { rewrite Hw, Hpost, <- app_assoc. reflexivity. }
  assert (He' : exists e', In e' l' /\ is_enumeration e' = true /\
             forall p, In e' p -> In (ListFilters 0 h) p \/ In (ListColdFilters 0 h) p).
  { destruct Hsucc as [Hi|Hi]; eexists; (split; [exact Hi|]);
      (split; [reflexivity|]); auto. }
  destruct He' as (e' & Hin' & He' & Hp').
  destruct (entry_with_enumeration k config fuel w _ l' p2 e' Hw2 Hin' He')
    as (u0 & u & mx' & sf' & w'' & _ & _ & Hl' & Hine' & _).
  destruct (pass_log k mx' sf' w'') as (_ & _ & Hs).
  destruct (Hs h (Hp' _ Hine')) as (Hpre & Hrel & Hall).
  subst l'. rewrite wake_prefix_counts by reflexivity.
  cbn [filters_touched]. split; [exact Hpre|].
  intros Hk. destruct (Hall Hk) as [Ht Hok]. auto.
Qed.

(** A thread that is still running has used up its wakes. *)
Lemma running_used_its_fuel k config fuel (w : W) t :
  exit (thread_main k config fuel w) = Running t ->
  List.length (wakes (thread_main k config fuel w)) = fuel.
Proof.
  destruct (thread_main_loop k config fuel w) as (mx & sf & w0 & _ & Hw & He).
  rewrite He, Hw. intros H.
  apply while_running in H; [apply H|apply wake_ticks].
Qed.

(** The pass through the loop in which the flag is read as 0. *)
Lemma cancelled_wake k config fuel (w : W) pre l post :
  wakes (thread_main k config fuel w) = pre ++ l :: post ->
  In (LoadShouldRun 0) l ->
  (forall l' v, In l' post -> In (LoadShouldRun v) l' -> v = 0) ->
  (acted l = false /\ count is_enumeration l = 0 /\ count is_filter_call l = 0) /\
  (post = [] \/ post = [[LoadShouldRun 0]]) /\
  (exit (thread_main k config fuel w) = Returned \/
   post = [] /\ exists t, exit (thread_main k config fuel w) = Running t).
Proof.
  intros Hw Hin Hmono.
  destruct (entry_shape k config fuel w pre l post Hw)
    as [(Hl & Hp & Hx)|[(v0 & l0 & Hv0 & Hl & Hl0)|(v0 & v & mx & sf & w' & Hv0 & Hv & Hl & _)]].
  - subst l post. auto.
  - destruct Hl0 as [Hl0|[Hl0 Hnext]]; subst l l0.
    + exfalso. repeat (destruct Hin as [Hin|Hin]; [try discriminate|]).
      * injection Hin as ->. contradiction.
      * destruct Hin.
    + destruct Hnext as [[-> Hrun]|(l1 & post1 & -> & Hl1)].
      * auto 6.
      * destruct Hl1 as [(-> & -> & Hret)|(v1 & rest & Hv1 & ->)].
        -- auto 6.
        -- exfalso. apply Hv1. apply (Hmono (LoadShouldRun v1 :: rest)).
           ++ left. reflexivity.
           ++ left. reflexivity.
  - exfalso. subst l.
    destruct (pass_log k mx sf w') as (Hfr & _).
    repeat (destruct Hin as [Hin|Hin]; [try discriminate|]).
    + injection Hin as ->. contradiction.
    + injection Hin as ->. contradiction.
    + apply (count_zero_not_in _ _ _ Hfr) in Hin. discriminate.
Qed.

(** C6 (amended).  In every run of every thread: a pass through the loop
    in which the flag is read as 0 starts no action, no enumeration and
    no call on a filter; if the flag is not set again, at most the loop
    test follows, and the thread returns as soon as the run is long
    enough to hold that loop test.  A pass of the flush or the cold-unmap
    thread that is under way never reads the flag: it calls on every
    filter of the chain and releases the list.  A pass of the
    memory-check thread never reads the flag either: it calls on a prefix
    of the chain, as far as its own loop takes it, and releases the list
    when it ends well. *)
Theorem no_new_action_after_cancellation k config fuel (w : W) pre l post :
  wakes (thread_main k config fuel w) = pre ++ l :: post ->
  In (LoadShouldRun 0) l ->
  (forall l' v, In l' post -> In (LoadShouldRun v) l' -> v = 0) ->
  (acted l = false /\ count is_enumeration l = 0 /\ count is_filter_call l = 0) /\
  (post = [] \/ post = [[LoadShouldRun 0]]) /\
  (exit (thread_main k config fuel w) = Returned \/
   post = [] /\ exists t, exit (thread_main k config fuel w) = Running t) /\
  ((S (List.length pre) < fuel)%nat ->
   exit (thread_main k config fuel w) = Returned) /\
  pass_completes (W:=W) FlushWorker /\
  pass_completes (W:=W) ColdUnmapWorker /\
  (forall mx sf (w' : W) h,
     let p := events (memory_check_pass mx sf w') in
     In (ListFilters 0 h) p ->
     count is_flag_read p = 0 /\
     (exists left, head h = filters_touched p ++ left) /\
     (outcome (memory_check_pass mx sf w') = Ok tt -> count is_release p = 1)).
Proof.
  intros Hw Hin Hmono.
  destruct (cancelled_wake k config fuel w pre l post Hw Hin Hmono)
    as (Hquiet & Hpost & Hexit).
  split; [exact Hquiet|]. split; [exact Hpost|]. split; [exact Hexit|].
  split.
  { intros Hfuel. destruct Hexit as [Hret|[-> [t Hrun]]]; [exact Hret|].
    apply running_used_its_fuel in Hrun. rewrite Hw, length_app in Hrun.
    cbn [List.length] in Hrun. lia. }
  assert (Hcomp : forall k', k' <> MemoryCheckWorker -> pass_completes (W:=W) k').
  { intros k' Hk' mx sf w' h. cbv zeta. intros Hs.
    destruct (pass_log k' mx sf w') as (Hfr & _ & Hsucc).
    destruct (Hsucc h Hs) as (_ & Hrel & Hall).
    destruct (Hall Hk') as [Ht Ho]. auto. }
  split; [apply Hcomp; discriminate|]. split; [apply Hcomp; discriminate|].
  intros mx sf w' h p Hs. subst p.
  destruct (pass_log MemoryCheckWorker mx sf w') as (Hfr & _ & Hsucc).
  destruct (Hsucc h (or_introl Hs)) as (Hpre & Hrel & _). auto.
Qed.

End Cancellation.

(** ** The release of the list *)

Section Release.
Context {W : Type} {E : Environment W}.

(** In the flush and the cold-unmap thread every successful enumeration
    is released exactly once, at the end of the pass that made it,
    whatever the calls on the filters return; in no thread is anything
    released after a failed enumeration; and the memory-check pass
    releases its list once whenever it ends without a fault. *)
Theorem release_once_per_enumeration :
  pass_completes (W:=W) FlushWorker /\
  pass_completes (W:=W) ColdUnmapWorker /\
  (forall k mx sf (w : W),
     enumeration_failed (events (pass k mx sf w)) ->
     count is_release (events (pass k mx sf w)) = 0) /\
  (forall k mx sf (w : W) h,
     In (ListFilters 0 h) (events (pass k mx sf w)) \/
     In (ListColdFilters 0 h) (events (pass k mx sf w)) ->
     outcome (pass k mx sf w) = Ok tt ->
     count is_release (events (pass k mx sf w)) = 1).
Proof.
  assert (Hcomp : forall k', k' <> MemoryCheckWorker -> pass_completes (W:=W) k').
  { intros k' Hk' mx sf w' h. cbv zeta. intros Hs.
    destruct (pass_log k' mx sf w') as (Hfr & _ & Hsucc).
    destruct (Hsucc h Hs) as (_ & Hrel & Hall).
    destruct (Hall Hk') as [Ht Ho]. auto. }
  split; [apply Hcomp; discriminate|]. split; [apply Hcomp; discriminate|].
  split.
  - intros k mx sf w Hf. destruct (pass_log k mx sf w) as (_ & Hfail & _).
    apply (Hfail Hf).
  - intros k mx sf w h Hs Ho. destruct (pass_log k mx sf w) as (_ & _ & Hsucc).
    destruct (Hsucc h Hs) as (_ & Hrel & _). exact (Hrel Ho).
Qed.

(** When the memory-check pass has enumerated the filters and every
    sample it takes is above the safe mark, it evicts the whole chain,
    faults on the null pointer behind it, and does not release the list. *)
Theorem eviction_faults_behind_the_chain max_memory safe_memory (w : W) h :
  In (ListFilters 0 h) (events (memory_check_pass max_memory safe_memory w)) ->
  Forall (fun v => v > safe_memory)
         (samples (events (memory_check_pass max_memory safe_memory w))) ->
  outcome (memory_check_pass max_memory safe_memory w) = Fault NullDereference /\
  filters_touched (events (memory_check_pass max_memory safe_memory w)) = head h /\
  count is_release (events (memory_check_pass max_memory safe_memory w)) = 0.
Proof.
  intros Hin Hall.
  destruct (memory_check_pass_spec max_memory safe_memory w)
    as (v0 & rest & Hev & Hle & Hgt).
  rewrite Hev in *.
  destruct (Z_le_gt_dec v0 max_memory) as [H|H].
  { destruct (Hle H) as [-> _]. destruct Hin as [Hin|[]]. discriminate. }
  destruct (Hgt H) as (res & h' & rest' & -> & Hfail & Hok).
  destruct (Z.eq_dec res 0) as [H0|H0].
  2:{ destruct (Hfail H0) as [-> _].
      destruct Hin as [Hin|[Hin|[Hin|[Hin|[]]]]]; try discriminate.
      injection Hin as -> _. contradiction. }
  destruct (Hok H0) as (body & _ & _ & _ & _ & Hend & _ & Hf).
  assert (Hloop : forall e, In e body -> is_loop_event e = true).
  { apply Forall_forall. exact Hf. }
  cbn [samples] in Hall.
  destruct Hend as [(Hlast & -> & _)|(_ & Ht & -> & Ho)].
  - exfalso. rewrite samples_app in Hall. cbn [samples] in Hall.
    rewrite app_nil_r in Hall.
    assert (Hl : In (last (v0 :: samples body) 0) (v0 :: samples body)).
    { destruct (exists_last (l:=v0 :: samples body) ltac:(discriminate))
        as (l' & a & Heq). rewrite Heq, last_last.
      apply in_or_app. right. left. reflexivity. }
    apply (proj1 (Forall_forall _ _) Hall) in Hl. lia.
  - split; [exact Ho|].
    assert (Hh : h' = h).
    { destruct Hin as [Hin|[Hin|[Hin|Hin]]]; try discriminate.
      - injection Hin as _ ->. reflexivity.
      - apply Hloop in Hin. discriminate. }
    subst h'. split; [exact Ht|].
    rewrite !count_cons. cbn [is_release].
    rewrite (count_loop_events is_release); [reflexivity| |exact Hf].
    intros [] He; try discriminate; reflexivity.
Qed.

End Release.

(** ** Evictions of a fixed size *)

Module FixedSize.

(** [evictions_needed] is the least number of evictions that reaches the
    safe mark. *)
Lemma evictions_needed_least m safe d (n : nat) :
  0 < d ->
  (m - Z.of_nat n * d <= safe <-> (Sim.evictions_needed m safe d <= n)%nat).
Proof.
  intros Hd. unfold Sim.evictions_needed.
  destruct (Z.leb_spec m safe) as [Hle|Hgt].
  - split; [lia|]. intros _. nia.
  - assert (Hq : 0 <= (m - safe + d - 1) / d) by (apply Z.div_pos; lia).
    pose proof (Z.div_mod (m - safe + d - 1) d ltac:(lia)) as Hdm.
    pose proof (Z.mod_pos_bound (m - safe + d - 1) d Hd) as Hb.
    split; intros H.
    + apply Nat2Z.inj_le. rewrite Z2Nat.id by exact Hq. nia.
    + apply Nat2Z.inj_le in H. rewrite Z2Nat.id in H by exact Hq. nia.
Qed.

Lemma evictions_needed_step m safe d :
  0 <= safe -> 0 < d -> safe < m ->
  Sim.evictions_needed m safe d =
  S (Sim.evictions_needed (Z.max 0 (m - d)) safe d).
Proof.
  intros Hs Hd Hm. unfold Sim.evictions_needed.
  destruct (Z.leb_spec m safe) as [Hle|_]; [lia|].
  destruct (Z.leb_spec (Z.max 0 (m - d)) safe) as [Hle|Hgt].
  - replace ((m - safe + d - 1) / d) with 1; [reflexivity|].
    apply Z.div_unique with (r := m - safe - 1); lia.
  - rewrite Z.max_r in * by lia.
    replace (m - safe + d - 1) with ((m - d - safe + d - 1) + 1 * d) by lia.
    rewrite Z.div_add by lia.
    rewrite Z2Nat.inj_add; [|apply Z.div_pos; lia|lia].
    rewrite Nat.add_comm. reflexivity.
Qed.

(** The eviction loop in the simulated environment, where every eviction
    frees the same amount: it evicts exactly the first
    [evictions_needed] filters of the chain (or all of them, when the
    chain is shorter). *)
Lemma evict_nodes_fixed safe node : forall cmds (w : Sim.world),
  0 <= safe -> 0 < Sim.freed w -> 0 <= Sim.rss w < SIZE_MODULUS ->
  filters_touched (events (evict_nodes safe node cmds (Sim.rss w) w)) =
  firstn (Sim.evictions_needed (Sim.rss w) safe (Sim.freed w)) node.
Proof.
  induction node as [|n next IH]; intros cmds w Hs Hd Hr; cbn [evict_nodes];
    destruct (Z.gtb_spec (Sim.rss w) safe) as [Hgt|Hle].
  - rewrite firstn_nil. reflexivity.
  - rewrite firstn_nil. reflexivity.
  - rewrite (evictions_needed_step Hs Hd Hgt). cbn [firstn].
    mstep. cbn [filters_touched]. f_equal.
    set (w1 := snd (env_flush_and_unmap_filter n (env_syslog w))).
    assert (Hrss : Sim.rss w1 = Z.max 0 (Sim.rss w - Sim.freed w)) by reflexivity.
    assert (Hfreed : Sim.freed w1 = Sim.freed w) by reflexivity.
    assert (Hsample : forall w2 : Sim.world, Sim.rss w2 = Sim.rss w1 ->
              Sim.freed w2 = Sim.freed w1 ->
              filters_touched
                (events ((current_memory' <- getCurrentRSS ;;
                          evict_nodes safe next (uincr cmds) current_memory') w2)) =
              firstn (Sim.evictions_needed (Sim.rss w1) safe (Sim.freed w1)) next).
    { intros w2 H2 H2'. mstep. cbn [filters_touched].
      change (env_get_current_rss w2) with (Sim.rss w2, w2). cbn [fst snd].
      assert (Hv : to_size_t (Sim.rss w2) = Sim.rss w2).
      { unfold to_size_t. apply Z.mod_small. rewrite H2, Hrss. lia. }
      rewrite Hv, <- H2, <- H2'. apply IH; rewrite ?H2, ?H2', ?Hrss, ?Hfreed; lia. }
    rewrite <- Hrss, <- Hfreed.
    destruct (periodic_checkpoint_cases (uincr cmds) w1) as [[_ Hp]|[_ Hp]];
      (erewrite bind_known by exact Hp); proj; cbn [filters_touched];
      apply Hsample; reflexivity.
  - unfold Sim.evictions_needed.
    destruct (Z.leb_spec (Sim.rss w) safe); [reflexivity|lia].
Qed.

(** The memory-check pass on a chain of filters of which each frees [d]:
    starting from [m] above the maximum, it evicts exactly the first
    [evictions_needed m safe d] filters, the least number that brings
    the memory to the safe mark or below. *)
Theorem fixed_size_evictions names m d max_memory safe_memory :
  0 <= safe_memory -> 0 < d -> max_memory < m < SIZE_MODULUS -> 0 <= max_memory ->
  filters_touched
    (events (memory_check_pass max_memory safe_memory
               (Sim.steady [Sim.listing names] [] m d))) =
  firstn (Sim.evictions_needed m safe_memory d) names.
Proof.
  intros Hs Hd Hm Hmax. unfold memory_check_pass. mstep.
  change (env_get_current_rss (Sim.steady [Sim.listing names] [] m d))
    with (m, Sim.steady [Sim.listing names] [] m d).
  cbn [fst snd].
  assert (Hv : to_size_t m = m) by (unfold to_size_t; apply Z.mod_small; lia).
  rewrite Hv. destruct (Z.gtb_spec m max_memory) as [_|Hle]; [|lia].
  mstep. cbn [filters_touched].
  change (env_list_filters (env_syslog (Sim.steady [Sim.listing names] [] m d)))
    with (Sim.listing names, Sim.steady [] [] m d).
  cbn [fst snd Sim.listing head negb Z.eqb].
  rewrite bind_events, filters_touched_app.
  pose proof (evict_nodes_fixed names 0 (Sim.steady [] [] m d) Hs Hd
                ltac:(cbn; lia)) as Hfix.
  cbn [Sim.rss Sim.freed Sim.steady] in Hfix. rewrite Hfix.
  destruct (outcome _); cbn; rewrite app_nil_r; reflexivity.
Qed.

(** Witness: five filters of 20 each from 100, marks at 80 and 50. *)
Lemma fixed_size_evictions_witness :
  filters_touched
    (events (memory_check_pass 80 50
               (Sim.steady [Sim.listing (Sim.names 5)] [] 100 20))) =
  firstn (Sim.evictions_needed 100 50 20) (Sim.names 5).
Proof.
  apply (fixed_size_evictions (Sim.names 5) (m:=100) (d:=20)
           (max_memory:=80) (safe_memory:=50)).
  - vm_compute. discriminate.
  - reflexivity.
  - split; reflexivity.
  - vm_compute. discriminate.
Defined.

End FixedSize.

(** * More of the loops *)

(** ** Readings of a log and concatenation *)

Lemma checkpointed_every_app n l1 : forall since l2,
  checkpointed_every n since (l1 ++ l2) =
  checkpointed_every n since l1 && checkpointed_every n (calls_since since l1) l2.
Proof.
  induction l1 as [|e l1 IH]; intros since l2; cbn [app checkpointed_every calls_since].
  - reflexivity.
  - destruct (is_checkpoint e); [apply IH|].
    destruct (is_filter_call e); [|apply IH].
    rewrite IH. apply andb_assoc.
Qed.

Lemma since_lt c : 0 <= c -> Nat.ltb (Z.to_nat (c mod 16)) 16 = true.
Proof.
  intros. apply Nat.ltb_lt. pose proof (Z.mod_pos_bound c 16 ltac:(lia)). lia.
Qed.

Lemma since_succ c :
  0 <= c -> (c + 1) mod 16 <> 0 ->
  S (Z.to_nat (c mod 16)) = Z.to_nat ((c + 1) mod 16).
Proof.
  intros Hc Hn.
  assert ((c + 1) mod 16 = c mod 16 + 1) by (Z.div_mod_to_equations; lia).
  pose proof (Z.mod_pos_bound c 16 ltac:(lia)). lia.
Qed.

Section Discipline.
Context {W : Type} {E : Environment W}.

(** The flush loop: only flushes and checkpoints, no line in the log,
    and never a seventeenth flush without a checkpoint. *)
Lemma flush_nodes_discipline node : forall cmds (w : W), 0 <= cmds ->
  let l := events (flush_nodes node cmds w) in
  Forall (fun e => in_loop FlushWorker e = true) l /\
  checkpointed_every 16 (Z.to_nat (cmds mod 16)) l = true.
Proof.
  induction node as [|n next IH]; intros cmds w Hc; cbv zeta;
    cbn [flush_nodes].
  - split; [constructor|reflexivity].
  - pose proof (uincr_range cmds) as Hr.
    specialize (IH (uincr cmds)). cbv zeta in IH.
    rewrite uincr_mod_checkpoint in IH. unfold PERIODIC_CHECKPOINT in IH.
    mstep.
    set (w1 := snd (env_flush_filter n w)).
    cbn [checkpointed_every is_checkpoint is_filter_call]. rewrite (since_lt Hc).
    cbn [andb].
    destruct (periodic_checkpoint_cases (uincr cmds) w1) as [[Hd Hp]|[Hd Hp]];
      (erewrite bind_known by exact Hp); proj;
      rewrite uincr_mod_checkpoint in Hd; unfold PERIODIC_CHECKPOINT in Hd.
    + destruct (IH (env_client_checkpoint w1) ltac:(lia)) as [Hf Hk].
      rewrite Hd in Hk. cbn [checkpointed_every is_checkpoint].
      split; [repeat (constructor; [reflexivity|]); exact Hf|exact Hk].
    + destruct (IH w1 ltac:(lia)) as [Hf Hk].
      rewrite (since_succ Hc Hd).
      split; [repeat (constructor; [reflexivity|]); exact Hf|exact Hk].
Qed.

(** The unmap loop: a line naming the filter, the unmap of that filter,
    checkpoints; never a seventeenth unmap without a checkpoint. *)
Lemma unmap_nodes_discipline node : forall cmds (w : W), 0 <= cmds ->
  let l := events (unmap_nodes node cmds w) in
  Forall (fun e => in_loop ColdUnmapWorker e = true) l /\
  checkpointed_every 16 (Z.to_nat (cmds mod 16)) l = true /\
  announced None l = true.
Proof.
  induction node as [|n next IH]; intros cmds w Hc; cbv zeta;
    cbn [unmap_nodes].
  - split; [constructor|split; reflexivity].
  - pose proof (uincr_range cmds) as Hr.
    specialize (IH (uincr cmds)). cbv zeta in IH.
    rewrite uincr_mod_checkpoint in IH. unfold PERIODIC_CHECKPOINT in IH.
    mstep.
    set (w1 := snd (env_unmap_filter n (env_syslog w))).
    cbn [checkpointed_every is_checkpoint is_filter_call announced
         announced_name called_name].
    rewrite (since_lt Hc), String.eqb_refl. cbn [andb].
    destruct (periodic_checkpoint_cases (uincr cmds) w1) as [[Hd Hp]|[Hd Hp]];
      (erewrite bind_known by exact Hp); proj;
      rewrite uincr_mod_checkpoint in Hd; unfold PERIODIC_CHECKPOINT in Hd.
    + destruct (IH (env_client_checkpoint w1) ltac:(lia)) as (Hf & Hk & Ha).
      rewrite Hd in Hk.
      cbn [checkpointed_every is_checkpoint announced announced_name called_name].
      split; [repeat (constructor; [reflexivity|]); exact Hf|].
      split; [exact Hk|exact Ha].
    + destruct (IH w1 ltac:(lia)) as (Hf & Hk & Ha).
      rewrite (since_succ Hc Hd).
      split; [repeat (constructor; [reflexivity|]); exact Hf|].
      split; [exact Hk|exact Ha].
Qed.

(** The eviction loop: a line naming the filter, the flush-and-unmap of
    that filter, checkpoints and samples; never a seventeenth eviction
    without a checkpoint. *)
Lemma evict_nodes_discipline safe node : forall cmds cur (w : W), 0 <= cmds ->
  let l := events (evict_nodes safe node cmds cur w) in
  Forall (fun e => in_loop MemoryCheckWorker e = true) l /\
  checkpointed_every 16 (Z.to_nat (cmds mod 16)) l = true /\
  announced None l = true.
Proof.
  induction node as [|n next IH]; intros cmds cur w Hc; cbv zeta;
    cbn [evict_nodes]; destruct (cur >? safe);
    try (split; [constructor|split; reflexivity]).
  pose proof (uincr_range cmds) as Hr.
  specialize (IH (uincr cmds)). cbv zeta in IH.
  rewrite uincr_mod_checkpoint in IH. unfold PERIODIC_CHECKPOINT in IH.
  mstep.
  set (w1 := snd (env_flush_and_unmap_filter n (env_syslog w))).
  cbn [checkpointed_every is_checkpoint is_filter_call announced
       announced_name called_name].
  rewrite (since_lt Hc), String.eqb_refl. cbn [andb].
  assert (Hrest : forall w2 : W,
    let l := events ((current_memory' <- getCurrentRSS ;;
                      evict_nodes safe next (uincr cmds) current_memory') w2) in
    Forall (fun e => in_loop MemoryCheckWorker e = true) l /\
    checkpointed_every 16 (Z.to_nat ((cmds + 1) mod 16)) l = true /\
    announced None l = true).
  { intros w2. cbv zeta. mstep.
    cbn [checkpointed_every is_checkpoint is_filter_call announced
         announced_name called_name].
    match goal with
    | |- context [evict_nodes safe next (uincr cmds) ?v ?w3] =>
        destruct (IH v w3 ltac:(lia)) as (Hf & Hk & Ha)
    end.
    split; [constructor; [reflexivity|exact Hf]|]. split; assumption. }
  destruct (periodic_checkpoint_cases (uincr cmds) w1) as [[Hd Hp]|[Hd Hp]];
    (erewrite bind_known by exact Hp); proj;
    rewrite uincr_mod_checkpoint in Hd; unfold PERIODIC_CHECKPOINT in Hd.
  - destruct (Hrest (env_client_checkpoint w1)) as (Hf & Hk & Ha).
    rewrite Hd in Hk.
    cbn [checkpointed_every is_checkpoint announced announced_name called_name].
    split; [repeat (constructor; [reflexivity|]); exact Hf|].
    split; [exact Hk|exact Ha].
  - destruct (Hrest w1) as (Hf & Hk & Ha).
    rewrite (since_succ Hc Hd).
    split; [repeat (constructor; [reflexivity|]); exact Hf|].
    split; [exact Hk|exact Ha].
Qed.

End Discipline.

(** ** The structure of a pass *)

Section Structure.
Context {W : Type} {E : Environment W}.

(** The log of a pass, taken apart: lines and samples, then (unless the
    memory was low) the enumeration, then either what is logged about a
    failure, or the loop over the chain and the release, or (in the
    memory-check thread only) the loop over the chain and a fault. *)
Lemma pass_structure k mx sf (w : W) :
  exists pre body,
    Forall (fun e => is_frame e = true /\ permitted k e = true) pre /\
    Forall (fun e => in_loop k e = true) body /\
    checkpointed_every 16 0 body = true /\
    (k <> FlushWorker -> announced None body = true) /\
    ((events (pass k mx sf w) = pre /\ body = [] /\
      outcome (pass k mx sf w) = Ok tt)
     \/
     (exists res h post, res <> 0 /\ body = [] /\
        events (pass k mx sf w) = pre ++ enumeration_of k res h :: post /\
        Forall (fun e => is_frame e = true /\ permitted k e = true) post /\
        outcome (pass k mx sf w) = Ok tt)
     \/
     (exists h mid,
        events (pass k mx sf w) =
          pre ++ enumeration_of k 0 h :: mid ++ body ++ [CleanupList h] /\
        Forall (fun e => is_frame e = true /\ permitted k e = true) mid /\
        outcome (pass k mx sf w) = Ok tt)
     \/
     (exists h, k = MemoryCheckWorker /\
        events (pass k mx sf w) = pre ++ enumeration_of k 0 h :: body /\
        outcome (pass k mx sf w) = Fault NullDereference)).
Proof.
  destruct k; cbn [pass].
  - unfold flush_pass. mstep.
    set (r := fst (env_list_filters (env_syslog w))).
    set (w1 := snd (env_list_filters (env_syslog w))).
    exists [Syslog LOG_INFO "Scheduled flush started." []].
    destruct (nonzero_cases (fst r)) as [[Hres Hb]|[Hres Hb]]; rewrite Hb.
    + exists []. mstep.
      split; [repeat constructor|]. split; [constructor|]. split; [reflexivity|].
      split; [intros; contradiction|].
      right. left. exists (fst r), (snd r), [Syslog LOG_WARNING "Failed to list filters for flushing!" []].
      repeat split; auto; repeat constructor.
    + destruct (flush_nodes_discipline (head (snd r)) (cmds:=0) w1 ltac:(lia))
        as [Hf Hk].
      destruct (flush_nodes_spec (head (snd r)) (cmds:=0) w1 ltac:(lia))
        as (Ho & _).
      exists (events (flush_nodes (head (snd r)) 0 w1)).
      (erewrite bind_ok by exact Ho). mstep.
      split; [repeat constructor|]. split; [exact Hf|]. split; [exact Hk|].
      split; [intros; contradiction|].
      right. right. left. exists (snd r), []. rewrite Hres.
      repeat split; auto.
  - unfold unmap_pass. mstep.
    set (r := fst (env_list_cold_filters (env_syslog w))).
    set (w1 := snd (env_list_cold_filters (env_syslog w))).
    exists [Syslog LOG_INFO "Cold unmap started." []].
    destruct (nonzero_cases (fst r)) as [[Hres Hb]|[Hres Hb]]; rewrite Hb.
    + exists [].
      split; [repeat constructor|]. split; [constructor|]. split; [reflexivity|].
      split; [reflexivity|].
      right. left. exists (fst r), (snd r), []. repeat split; auto.
    + mstep.
      destruct (unmap_nodes_discipline (head (snd r)) (cmds:=0) (env_syslog w1)
                  ltac:(lia)) as (Hf & Hk & Ha).
      destruct (unmap_nodes_spec (head (snd r)) (cmds:=0) (env_syslog w1)
                  ltac:(lia)) as (Ho & _).
      exists (events (unmap_nodes (head (snd r)) 0 (env_syslog w1))).
      (erewrite bind_ok by exact Ho). mstep.
      split; [repeat constructor|]. split; [exact Hf|]. split; [exact Hk|].
      split; [intros _; exact Ha|].
      right. right. left.
      exists (snd r), [Syslog LOG_INFO "Cold filter count: %d" [ArgInt (size (snd r))]].
      rewrite Hres. repeat split; auto; repeat constructor.
  - unfold memory_check_pass. mstep.
    set (v0 := fst (let '(v, w') := env_get_current_rss w in (to_size_t v, w'))).
    set (w0 := snd (let '(v, w') := env_get_current_rss w in (to_size_t v, w'))).
    destruct (v0 >? mx).
    + mstep.
      set (r := fst (env_list_filters (env_syslog w0))).
      set (w1 := snd (env_list_filters (env_syslog w0))).
      exists [GetCurrentRSS v0;
              Syslog LOG_INFO "Max memory exceeded. Unmapping filters to reclaim RAM." []].
      destruct (nonzero_cases (fst r)) as [[Hres Hb]|[Hres Hb]]; rewrite Hb.
      * exists []. mstep.
        split; [repeat constructor|]. split; [constructor|]. split; [reflexivity|].
        split; [reflexivity|].
        right. left. exists (fst r), (snd r), [Syslog LOG_WARNING "Failed to list filters for flushing!" []].
        repeat split; auto; repeat constructor.
      * destruct (evict_nodes_discipline sf (head (snd r)) (cmds:=0) v0 w1
                    ltac:(lia)) as (Hf & Hk & Ha).
        destruct (evict_nodes_spec sf (head (snd r)) (cmds:=0) v0 w1 ltac:(lia))
          as (_ & _ & _ & _ & Hend & _).
        exists (events (evict_nodes sf (head (snd r)) 0 v0 w1)).
        split; [repeat constructor|]. split; [exact Hf|]. split; [exact Hk|].
        split; [intros _; exact Ha|].
        destruct Hend as [[Ho _]|(Ho & _)].
        -- (erewrite bind_ok by exact Ho). mstep.
           right. right. left. exists (snd r), []. rewrite Hres.
           repeat split; auto.
        -- (erewrite bind_fault by exact Ho). proj.
           right. right. right. exists (snd r). rewrite Hres. auto.
    + exists [GetCurrentRSS v0], []. mstep.
      split; [repeat constructor|]. split; [constructor|]. split; [reflexivity|].
      split; [reflexivity|]. left. auto.
Qed.

End Structure.

(** ** What a pass logs and what it does not *)

Lemma frame_facts k e :
  is_frame e = true /\ permitted k e = true ->
  is_sleep e = false /\ is_flag_read e = false /\ is_checkpoint e = false /\
  is_filter_call e = false /\ announced_name e = None /\ called_name e = None /\
  is_release e = false /\ is_successful_enumeration e = false /\
  is_enumeration e = false.
Proof.
  intros [Hf _]. destruct e; try discriminate; cbn; repeat split; auto.
  destruct args as [|[] []]; try discriminate; reflexivity.
Qed.

Lemma loop_facts k e :
  in_loop k e = true ->
  permitted k e = true /\ is_sleep e = false /\ is_flag_read e = false /\
  is_release e = false /\ is_successful_enumeration e = false /\
  is_enumeration e = false /\ (k = FlushWorker -> announced_name e = None).
Proof.
  intros H. destruct e; try discriminate; cbn in *; repeat split; auto;
    destruct k; try discriminate; auto;
    destruct p; try discriminate; destruct args as [|[] []]; discriminate.
Qed.

Lemma enumeration_facts k res h :
  permitted k (enumeration_of k res h) = true /\
  is_sleep (enumeration_of k res h) = false /\
  is_flag_read (enumeration_of k res h) = false /\
  is_checkpoint (enumeration_of k res h) = false /\
  is_filter_call (enumeration_of k res h) = false /\
  announced_name (enumeration_of k res h) = None /\
  called_name (enumeration_of k res h) = None /\
  is_release (enumeration_of k res h) = false /\
  is_enumeration (enumeration_of k res h) = true /\
  is_successful_enumeration (enumeration_of k res h) = (res =? 0).
Proof. destruct k; cbn; repeat split; destruct res; reflexivity. Qed.

(** A list of events that are no checkpoints and no calls on filters
    changes nothing for [checkpointed_every]. *)
Lemma checkpointed_every_idle n l : forall since,
  Forall (fun e => is_checkpoint e = false /\ is_filter_call e = false) l ->
  checkpointed_every n since l = true /\ calls_since since l = since.
Proof.
  induction l as [|e l IH]; intros since Hf; [split; reflexivity|].
  inversion Hf as [|? ? [H1 H2] Hl]; subst.
  cbn [checkpointed_every calls_since]. rewrite H1, H2. apply IH. exact Hl.
Qed.

(** Events that neither name a filter nor call on one change nothing for
    [announced]. *)
Lemma announced_silent_l l1 : forall p l2,
  Forall (fun e => announced_name e = None /\ called_name e = None) l1 ->
  announced p (l1 ++ l2) = announced p l2.
Proof.
  induction l1 as [|e l1 IH]; intros p l2 Hf; [reflexivity|].
  inversion Hf as [|? ? [H1 H2] Hl]; subst.
  cbn [app announced]. rewrite H1, H2. apply IH. exact Hl.
Qed.

Lemma announced_silent_r l2 : forall p l1,
  Forall (fun e => announced_name e = None /\ called_name e = None) l2 ->
  announced p (l1 ++ l2) = announced p l1.
Proof.
  intros p l1 Hf. revert p.
  induction l1 as [|e l1 IH]; intros p; cbn [app].
  - rewrite <- (app_nil_r l2), announced_silent_l by exact Hf. reflexivity.
  - cbn [announced].
    destruct (announced_name e); [destruct p; [reflexivity|apply IH]|].
    destruct (called_name e); [|apply IH].
    destruct p; [|reflexivity]. rewrite IH. reflexivity.
Qed.

Lemma count_none (p : event -> bool) l :
  Forall (fun e => p e = false) l -> count p l = 0.
Proof.
  intros Hf. induction Hf as [|e l He _ IH]; [reflexivity|].
  rewrite count_cons, He, IH. reflexivity.
Qed.

(** The last element of a list that holds no other element of its kind
    is found by any split at an element of that kind. *)
Lemma split_at_the_only (p : event -> bool) a x : forall l1 y l2,
  count p a = 0 -> a ++ [x] = l1 ++ y :: l2 -> p y = true ->
  l1 = a /\ y = x /\ l2 = [].
Proof.
  induction a as [|e a IH]; intros l1 y l2 Hc Heq Hy.
  - destruct l1 as [|e1 l1]; cbn in Heq.
    + injection Heq as <- <-. auto.
    + injection Heq as _ Heq. destruct l1; discriminate.
  - rewrite count_cons in Hc. pose proof (count_nonneg p a).
    destruct l1 as [|e1 l1]; cbn in Heq; injection Heq as He Heq.
    + subst y. rewrite Hy in Hc. lia.
    + subst e1. destruct (p e); [lia|].
      destruct (IH l1 y l2 ltac:(lia) Heq Hy) as (-> & -> & ->). auto.
Qed.

Section PassFacts.
Context {W : Type} {E : Environment W}.

Ltac structure k mx sf w :=
  destruct (pass_structure k mx sf w)
    as (pre & body & Hpre & Hbody & Hevery & Hann &
        [(Hev & Hb & Ho)
        |[(res & h & post & Hres & Hb & Hev & Hpost & Ho)
         |[(h & mid & Hev & Hmid & Ho)
          |(h & Hk & Hev & Ho)]]]);
  rewrite Hev.

(** Every event of a pass is one its thread may make; a pass never
    sleeps and never reads the flag. *)
Lemma pass_permitted k mx sf (w : W) :
  Forall (fun e => permitted k e = true /\ is_sleep e = false /\
                   is_flag_read e = false)
         (events (pass k mx sf w)).
Proof.
  assert (Hframe : forall l,
    Forall (fun e => is_frame e = true /\ permitted k e = true) l ->
    Forall (fun e => permitted k e = true /\ is_sleep e = false /\
                     is_flag_read e = false) l).
  { apply Forall_impl. intros e He.
    pose proof (@frame_facts k e He). destruct He. tauto. }
  assert (Hloop : forall l,
    Forall (fun e => in_loop k e = true) l ->
    Forall (fun e => permitted k e = true /\ is_sleep e = false /\
                     is_flag_read e = false) l).
  { apply Forall_impl. intros e He. pose proof (@loop_facts _ e He). tauto. }
  assert (Henum : forall res h,
    permitted k (enumeration_of k res h) = true /\
    is_sleep (enumeration_of k res h) = false /\
    is_flag_read (enumeration_of k res h) = false).
  { intros res h. pose proof (enumeration_facts k res h). tauto. }
  structure k mx sf w.
  - auto.
  - apply Forall_app. split; [auto|]. constructor; auto.
  - apply Forall_app. split; [auto|]. constructor; [auto|].
    apply Forall_app. split; [auto|]. apply Forall_app. split; [auto|].
    constructor; [auto|constructor].
  - apply Forall_app. split; [auto|]. constructor; auto.
Qed.

(** A pass never makes a seventeenth call on a filter without a
    checkpoint in between. *)
Lemma pass_checkpointed k mx sf (w : W) :
  checkpointed_every 16 0 (events (pass k mx sf w)) = true.
Proof.
  assert (Hidle : forall l,
    Forall (fun e => is_frame e = true /\ permitted k e = true) l ->
    Forall (fun e => is_checkpoint e = false /\ is_filter_call e = false) l).
  { apply Forall_impl. intros e He. pose proof (@frame_facts k e He). tauto. }
  assert (Henum : forall res h,
    is_checkpoint (enumeration_of k res h) = false /\
    is_filter_call (enumeration_of k res h) = false).
  { intros res h. pose proof (enumeration_facts k res h). tauto. }
  structure k mx sf w.
  - apply checkpointed_every_idle. auto.
  - apply checkpointed_every_idle. apply Forall_app. split; [auto|].
    constructor; [|auto]. apply Henum.
  - rewrite checkpointed_every_app.
    destruct (checkpointed_every_idle 16 0 (Hidle _ Hpre)) as [-> ->].
    cbn [andb checkpointed_every].
    destruct (Henum 0 h) as [-> ->].
    rewrite checkpointed_every_app.
    destruct (checkpointed_every_idle 16 0 (Hidle _ Hmid)) as [-> ->].
    rewrite checkpointed_every_app, Hevery.
    cbn [andb checkpointed_every is_checkpoint is_filter_call]. reflexivity.
  - rewrite checkpointed_every_app.
    destruct (checkpointed_every_idle 16 0 (Hidle _ Hpre)) as [-> ->].
    cbn [andb checkpointed_every].
    destruct (Henum 0 h) as [-> ->]. exact Hevery.
Qed.

(** In the cold-unmap and memory-check passes every line that names a
    filter is followed by the call on that filter, and no call is made
    on a filter that the line before did not name. *)
Lemma pass_announced k mx sf (w : W) :
  k <> FlushWorker -> announced None (events (pass k mx sf w)) = true.
Proof.
  intros Hk0.
  assert (Hsil : forall l,
    Forall (fun e => is_frame e = true /\ permitted k e = true) l ->
    Forall (fun e => announced_name e = None /\ called_name e = None) l).
  { apply Forall_impl. intros e He. pose proof (@frame_facts k e He). tauto. }
  assert (Henum : forall res h,
    announced_name (enumeration_of k res h) = None /\
    called_name (enumeration_of k res h) = None).
  { intros res h. pose proof (enumeration_facts k res h). tauto. }
  structure k mx sf w.
  - rewrite <- (app_nil_r pre), announced_silent_l by auto. reflexivity.
  - rewrite announced_silent_l by auto. cbn [announced].
    destruct (Henum res h) as [-> ->].
    rewrite <- (app_nil_r post), announced_silent_l by auto. reflexivity.
  - rewrite announced_silent_l by auto. cbn [announced].
    destruct (Henum 0 h) as [-> ->].
    rewrite announced_silent_l by auto.
    rewrite announced_silent_r; [auto|].
    constructor; [split; reflexivity|constructor].
  - rewrite announced_silent_l by auto. cbn [announced].
    destruct (Henum 0 h) as [-> ->]. auto.
Qed.

(** The flush pass writes no line that names a filter. *)
Lemma flush_pass_names_nothing mx sf (w : W) :
  Forall (fun e => announced_name e = None) (events (pass FlushWorker mx sf w)).
Proof.
  assert (Hsil : forall l,
    Forall (fun e => is_frame e = true /\ permitted FlushWorker e = true) l ->
    Forall (fun e => announced_name e = None) l).
  { apply Forall_impl. intros e He. pose proof (@frame_facts FlushWorker e He). tauto. }
  assert (Hloop : forall l,
    Forall (fun e => in_loop FlushWorker e = true) l ->
    Forall (fun e => announced_name e = None) l).
  { apply Forall_impl. intros e He. pose proof (@loop_facts _ e He).
    intuition. }
  structure FlushWorker mx sf w.
  - auto.
  - apply Forall_app. split; [auto|]. constructor; auto.
  - apply Forall_app. split; [auto|]. constructor; [reflexivity|].
    apply Forall_app. split; [auto|]. apply Forall_app. split; [auto|].
    constructor; [reflexivity|constructor].
  - discriminate.
Qed.

(** Successful enumerations and releases of a pass: as many of the one
    as of the other, but for the pass that faults behind the chain,
    which holds the one list it never releases. *)
Lemma pass_balance k mx sf (w : W) :
  count is_successful_enumeration (events (pass k mx sf w)) =
  count is_release (events (pass k mx sf w)) +
  match outcome (pass k mx sf w) with
  | Fault NullDereference => 1
  | _ => 0
  end.
Proof.
  assert (Hfs : forall l,
    Forall (fun e => is_frame e = true /\ permitted k e = true) l ->
    count is_successful_enumeration l = 0).
  { intros l Hl. apply count_none. revert Hl. apply Forall_impl.
    intros e He. pose proof (@frame_facts k e He). tauto. }
  assert (Hfr : forall l,
    Forall (fun e => is_frame e = true /\ permitted k e = true) l ->
    count is_release l = 0).
  { intros l Hl. apply count_none. revert Hl. apply Forall_impl.
    intros e He. pose proof (@frame_facts k e He). tauto. }
  assert (Hls : forall l,
    Forall (fun e => in_loop k e = true) l ->
    count is_successful_enumeration l = 0).
  { intros l Hl. apply count_none. revert Hl. apply Forall_impl.
    intros e He. pose proof (@loop_facts _ e He). tauto. }
  assert (Hlr : forall l,
    Forall (fun e => in_loop k e = true) l ->
    count is_release l = 0).
  { intros l Hl. apply count_none. revert Hl. apply Forall_impl.
    intros e He. pose proof (@loop_facts _ e He). tauto. }
  structure k mx sf w; rewrite Ho.
  - rewrite Hfs, Hfr by auto. reflexivity.
  - rewrite !count_app, !count_cons, Hfs, Hfr, (Hfs post), (Hfr post) by auto.
    pose proof (enumeration_facts k res h) as (_&_&_&_&_&_&_& -> & _ & ->).
    destruct (Z.eqb_spec res 0); [contradiction|reflexivity].
  - rewrite !count_app, !count_cons, !count_app, !count_cons, !count_nil,
      Hfs, Hfr, (Hfs mid), (Hfr mid), Hls, Hlr by auto.
    pose proof (enumeration_facts k 0 h) as (_&_&_&_&_&_&_& -> & _ & ->).
    reflexivity.
  - rewrite !count_app, !count_cons, Hfs, Hfr, Hls, Hlr by auto.
    pose proof (enumeration_facts k 0 h) as (_&_&_&_&_&_&_& -> & _ & ->).
    reflexivity.
Qed.

End PassFacts.

(** ** From the pass to the run *)

Lemma checkpointed_concat ls :
  Forall (fun l => forall since, checkpointed_every 16 since l = true) ls ->
  forall since, checkpointed_every 16 since (List.concat ls) = true.
Proof.
  intros Hf. induction Hf as [|l ls Hl _ IH]; intros since; [reflexivity|].
  cbn [List.concat]. rewrite checkpointed_every_app, Hl, IH. reflexivity.
Qed.

Section RunFacts.
Context {W : Type} {E : Environment W}.

(** The faults of the interval test. *)
Lemma interval_test_faults ticks seconds (w : W) x :
  outcome (interval_test ticks seconds w) = Fault x ->
  x = DivisionByZero /\ seconds = 0 \/
  x = SignedOverflow /\ (seconds * 4 < INT_MIN \/ INT_MAX < seconds * 4).
Proof.
  unfold interval_test, SEC_TO_TICKS, fits_int.
  destruct (Z.leb_spec INT_MIN (seconds * 4));
    destruct (Z.leb_spec (seconds * 4) INT_MAX); cbn [andb];
    try (cbn; intros Hx; injection Hx as <-; right; split; [reflexivity|lia]).
  rewrite bind_ret.
  destruct (Z.eqb_spec (to_unsigned (seconds * 4)) 0) as [Hz|Hz].
  - cbn. intros Hx; injection Hx as <-. left. split; [reflexivity|].
    unfold to_unsigned, UINT_MODULUS, INT_MIN, INT_MAX in *.
    Z.div_mod_to_equations. lia.
  - destruct (ticks mod to_unsigned (seconds * 4) =? 0);
      [mstep|cbn]; discriminate.
Qed.

(** The three forms of a wake: the interval test failed or faulted; it
    read the flag as set to stop; it went on to the pass. *)
Lemma wake_forms k mx sf config ticks (w : W) :
  let o := wake k mx sf config ticks w in
  (events o = [Usleep PERIODIC_TIME_USEC; ClientCheckpoint] /\
   forall x, outcome o = Fault x ->
     x = DivisionByZero /\ interval k config = 0 \/
     x = SignedOverflow /\
       (interval k config * 4 < INT_MIN \/ INT_MAX < interval k config * 4))
  \/
  (events o = [Usleep PERIODIC_TIME_USEC; ClientCheckpoint; LoadShouldRun 0] /\
   outcome o = Ok (uincr ticks))
  \/
  (exists v w', v <> 0 /\
     events o = Usleep PERIODIC_TIME_USEC :: ClientCheckpoint :: LoadShouldRun v
                  :: events (pass k mx sf w') /\
     outcome o = match outcome (pass k mx sf w') with
                 | Ok _ => Ok (uincr ticks)
                 | Fault x => Fault x
                 end).
Proof.
  cbv zeta. rewrite wake_periodic. unfold periodic_wake. mstep.
  set (w2 := env_client_checkpoint (env_usleep PERIODIC_TIME_USEC w)).
  rewrite bind_events, bind_outcome.
  pose proof (@interval_test_faults (uincr ticks) (interval k config) w2) as Hnf.
  destruct (interval_test_shape (uincr ticks) (interval k config) w2)
    as [(He & Hw & Ho)|(He & Hw & Ho)]; rewrite He, Hw.
  - left.
    destruct (outcome (interval_test (uincr ticks) (interval k config) w2))
      as [[|]|x]; [contradiction| |]; (split; [reflexivity|]);
      intros y Hy; [discriminate|].
    injection Hy as <-. apply Hnf. reflexivity.
  - rewrite Ho.
    destruct (nonzero_cases (fst (env_should_run w2))) as [[Hv Hb]|[Hv Hb]];
      rewrite Hb.
    + right. right.
      exists (fst (env_should_run w2)), (snd (env_should_run w2)).
      split; [exact Hv|]. rewrite bind_events, bind_outcome.
      destruct (outcome (pass k mx sf (snd (env_should_run w2)))) as [[]|x];
        cbn; rewrite ?app_nil_r; auto.
    + right. left. rewrite Hv. cbn. auto.
Qed.

(** What holds of the loop test that ends the loop and of every wake
    holds of every entry of a run. *)
Lemma run_entries (P : log -> Prop) k config fuel (w : W) :
  P [LoadShouldRun 0] ->
  (forall v mx sf t w', v <> 0 ->
     P (LoadShouldRun v :: events (wake k mx sf config t w'))) ->
  Forall P (wakes (thread_main k config fuel w)).
Proof.
  intros H0 Hw.
  destruct (thread_main_loop k config fuel w) as (mx & sf & w0 & _ & -> & _).
  apply Forall_forall. intros l Hl.
  apply In_nth_error in Hl. destruct Hl as [n Hn].
  apply while_nth in Hn; [|apply wake_ticks].
  destruct Hn as (v & w' & [[-> ->]|[Hv ->]]); auto.
Qed.

(** What a thread logs before its loop. *)
Lemma thread_main_startup k config fuel (w : W) :
  exists fmt,
    startup (thread_main k config fuel w) =
    match k with
    | MemoryCheckWorker =>
        [GetMemorySize (to_size_t (fst (env_get_memory_size w)))]
    | _ => []
    end ++ [ClientCheckpoint; Syslog LOG_INFO fmt [ArgInt (interval k config)]].
Proof.
  destruct k; cbn [thread_main];
    unfold flush_thread_main, unmap_thread_main, memory_check_thread_main, thread;
    prims; unfold bind, call_, call, ret.
  - eexists. cbn. reflexivity.
  - eexists. cbn. reflexivity.
  - destruct (env_get_memory_size w) as [v w1]. eexists. cbn. reflexivity.
Qed.

(** Every event of a wake is one its thread may make; the wake sleeps
    once and reads the flag at most once. *)
Lemma wake_permitted k mx sf config ticks (w : W) :
  let l := events (wake k mx sf config ticks w) in
  Forall (fun e => permitted k e = true) l /\
  count is_sleep l = 1 /\ 0 <= count is_flag_read l <= 1.
Proof.
  cbv zeta.
  destruct (wake_forms k mx sf config ticks w)
    as [[-> _]|[[-> _]|(v & w' & Hv & -> & _)]].
  - split; [repeat constructor|]. cbn. lia.
  - split; [repeat constructor|]. cbn. lia.
  - pose proof (pass_permitted k mx sf w') as Hp.
    split.
    + repeat (constructor; [reflexivity|]).
      revert Hp. apply Forall_impl. tauto.
    + rewrite !count_cons.
      rewrite (@count_none is_sleep (events (pass k mx sf w')))
        by (revert Hp; apply Forall_impl; tauto).
      rewrite (@count_none is_flag_read (events (pass k mx sf w')))
        by (revert Hp; apply Forall_impl; tauto).
      cbn. lia.
Qed.

Lemma wake_checkpointed k mx sf config ticks (w : W) since :
  checkpointed_every 16 since (events (wake k mx sf config ticks w)) = true.
Proof.
  destruct (wake_forms k mx sf config ticks w)
    as [[-> _]|[[-> _]|(v & w' & Hv & -> & _)]]; try reflexivity.
  cbn [checkpointed_every is_checkpoint is_filter_call].
  apply pass_checkpointed.
Qed.

Lemma wake_lines k mx sf config ticks (w : W) v :
  lines_match_calls k (LoadShouldRun v :: events (wake k mx sf config ticks w)).
Proof.
  destruct (wake_forms k mx sf config ticks w)
    as [[-> _]|[[-> _]|(v1 & w' & Hv & -> & _)]].
  - destruct k; cbn; repeat constructor.
  - destruct k; cbn; repeat constructor.
  - destruct k; cbn [lines_match_calls].
    + repeat (constructor; [reflexivity|]). apply flush_pass_names_nothing.
    + cbn [announced announced_name called_name].
      apply pass_announced. discriminate.
    + cbn [announced announced_name called_name].
      apply pass_announced. discriminate.
Qed.

(** Successful enumerations and releases of a wake. *)
Lemma wake_balance k mx sf config ticks (w : W) :
  let o := wake k mx sf config ticks w in
  count is_successful_enumeration (events o) =
  count is_release (events o) +
  match outcome o with Fault NullDereference => 1 | _ => 0 end.
Proof.
  cbv zeta.
  destruct (wake_forms k mx sf config ticks w)
    as [[-> Ho]|[[-> ->]|(v & w' & Hv & -> & ->)]].
  - destruct (outcome (wake k mx sf config ticks w)) as [|[]];
      try reflexivity.
    destruct (Ho _ eq_refl) as [[? _]|[? _]]; discriminate.
  - reflexivity.
  - rewrite !count_cons. cbn [is_successful_enumeration is_release].
    rewrite pass_balance.
    destruct (outcome (pass k mx sf w')) as [|[]]; reflexivity.
Qed.

Lemma while_balance k mx sf config fuel : forall t (w : W),
  let o := while_should_run (wake k mx sf config) fuel t w in
  count is_successful_enumeration (List.concat (fst (fst o))) =
  count is_release (List.concat (fst (fst o))) +
  match snd o with Crashed NullDereference => 1 | _ => 0 end.
Proof.
  induction fuel as [|fuel IH]; intros t w; cbv zeta;
    cbn [while_should_run]; [reflexivity|].
  destruct (env_should_run w) as [v w1].
  destruct (v =? 0); [reflexivity|].
  pose proof (wake_balance k mx sf config t w1) as Hb. cbv zeta in Hb.
  destruct (wake k mx sf config t w1) as [[l w2] [t'|x]]; proj_in Hb.
  - specialize (IH t' w2). cbv zeta in IH.
    destruct (while_should_run (wake k mx sf config) fuel t' w2)
      as [[ls w3] st].
    cbn [fst snd List.concat] in *.
    rewrite !count_app, !count_cons. cbn [is_successful_enumeration is_release].
    lia.
  - cbn [fst snd List.concat]. rewrite app_nil_r, !count_cons.
    cbn [is_successful_enumeration is_release]. lia.
Qed.

(** A split of a list at a release lies behind a prefix without one. *)
Lemma split_behind p : forall rest l1 h l2,
  count is_release p = 0 ->
  p ++ rest = l1 ++ CleanupList h :: l2 ->
  exists l1', l1 = p ++ l1' /\ rest = l1' ++ CleanupList h :: l2.
Proof.
  induction p as [|e p IH]; intros rest l1 h l2 Hc Heq.
  - exists l1. auto.
  - rewrite count_cons in Hc. pose proof (count_nonneg is_release p).
    destruct l1 as [|e1 l1]; cbn in Heq; injection Heq as He Heq.
    + subst e. cbn [is_release] in Hc. lia.
    + subst e1. destruct (is_release e); [lia|].
      destruct (IH rest l1 h l2 ltac:(lia) Heq) as (l1' & -> & ->).
      exists l1'. auto.
Qed.

(** The release of a pass is its last event, and the list released is
    the one the enumeration of the pass returned. *)
Lemma pass_release_last k mx sf (w : W) l1 h l2 :
  events (pass k mx sf w) = l1 ++ CleanupList h :: l2 ->
  l2 = [] /\ In (enumeration_of k 0 h) l1 /\ count is_release l1 = 0.
Proof.
  intros Heq.
  assert (Hfr : forall l,
    Forall (fun e => is_frame e = true /\ permitted k e = true) l ->
    count is_release l = 0).
  { intros l Hl. apply count_none. revert Hl. apply Forall_impl.
    intros e He. pose proof (@frame_facts k e He). tauto. }
  assert (Hlr : forall l,
    Forall (fun e => in_loop k e = true) l -> count is_release l = 0).
  { intros l Hl. apply count_none. revert Hl. apply Forall_impl.
    intros e He. pose proof (@loop_facts _ e He). tauto. }
  assert (Hen : forall res h, is_release (enumeration_of k res h) = false).
  { intros res h0. pose proof (enumeration_facts k res h0). tauto. }
  assert (Hone : count is_release (events (pass k mx sf w)) >= 1).
  { rewrite Heq, count_app, count_cons. cbn [is_release].
    pose proof (count_nonneg is_release l1).
    pose proof (count_nonneg is_release l2). lia. }
  destruct (pass_structure k mx sf w)
    as (pre & body & Hpre & Hbody & _ & _ &
        [(Hev & Hb & Ho)
        |[(res & h' & post & Hres & Hb & Hev & Hpost & Ho)
         |[(h' & mid & Hev & Hmid & Ho)
          |(h' & Hk & Hev & Ho)]]]).
  - rewrite Hev, Hfr in Hone by auto. lia.
  - rewrite Hev, count_app, count_cons, Hen, Hfr, (Hfr post) in Hone by auto.
    lia.
  - assert (Ha : count is_release (pre ++ enumeration_of k 0 h' :: mid ++ body)
                 = 0).
    { rewrite count_app, count_cons, count_app, Hen, Hfr, (Hfr mid), Hlr
        by auto. reflexivity. }
    assert (Heq' : (pre ++ enumeration_of k 0 h' :: mid ++ body)
                     ++ [CleanupList h'] = l1 ++ CleanupList h :: l2).
    { rewrite <- Heq, Hev, <- !app_assoc. cbn [app].
      rewrite <- !app_assoc. reflexivity. }
    destruct (split_at_the_only is_release _ _ _ _ _ Ha Heq' eq_refl)
      as (-> & Hh & ->).
    injection Hh as ->.
    split; [reflexivity|]. split; [|exact Ha].
    apply in_or_app. right. left. reflexivity.
  - rewrite Hev, count_app, count_cons, Hen, Hfr, Hlr in Hone by auto. lia.
Qed.

(** A pass that faults is the pass of the memory-check thread, behind
    the chain it has evicted to the end. *)
Lemma pass_fault k mx sf (w : W) x :
  outcome (pass k mx sf w) = Fault x ->
  x = NullDereference /\ k = MemoryCheckWorker /\
  exists h, In (ListFilters 0 h) (events (pass k mx sf w)) /\
    filters_touched (events (pass k mx sf w)) = head h /\
    count is_release (events (pass k mx sf w)) = 0.
Proof.
  intros Hx.
  destruct (pass_outcome k mx sf w) as [Ho|[-> Ho]];
    rewrite Ho in Hx; [discriminate|]. injection Hx as <-.
  split; [reflexivity|]. split; [reflexivity|].
  cbn [pass] in *.
  destruct (memory_check_pass_spec mx sf w) as (v0 & rest & Hev & Hle & Hgt).
  rewrite Hev.
  destruct (Z_le_gt_dec v0 mx) as [Hc|Hc].
  { destruct (Hle Hc) as [_ Ho']. rewrite Ho in Ho'. discriminate. }
  destruct (Hgt Hc) as (res & h & rest' & -> & Hbad & Hgood).
  destruct (Z.eq_dec res 0) as [->|Hres].
  2:{ destruct (Hbad Hres) as [_ Ho']. rewrite Ho in Ho'. discriminate. }
  destruct (Hgood eq_refl)
    as (body & _ & _ & _ & _ & [(_ & _ & Ho')|(_ & Hall & -> & _)] & _ & Hloop).
  { rewrite Ho in Ho'. discriminate. }
  exists h. split; [right; right; left; reflexivity|].
  split; [exact Hall|].
  rewrite !count_cons. cbn [is_release].
  rewrite (@count_loop_events is_release body); [reflexivity| |exact Hloop].
  intros e He. destruct e; try discriminate; reflexivity.
Qed.

(** A wake faults in its interval test or in its pass. *)
Lemma wake_fault k mx sf config ticks (w : W) x :
  outcome (wake k mx sf config ticks w) = Fault x ->
  x = DivisionByZero /\ interval k config = 0 \/
  x = SignedOverflow /\
    (interval k config * 4 < INT_MIN \/ INT_MAX < interval k config * 4) \/
  exists v w',
    events (wake k mx sf config ticks w) =
      Usleep PERIODIC_TIME_USEC :: ClientCheckpoint :: LoadShouldRun v
        :: events (pass k mx sf w') /\
    outcome (pass k mx sf w') = Fault x.
Proof.
  destruct (wake_forms k mx sf config ticks w)
    as [[He Ho]|[[He Ho]|(v & w' & Hv & He & Ho)]].
  - intros Hx. destruct (Ho x Hx) as [H|H]; auto.
  - rewrite Ho. discriminate.
  - rewrite Ho. intros Hx. right. right. exists v, w'. split; [exact He|].
    destruct (outcome (pass k mx sf w')) as [|y]; [discriminate|].
    injection Hx as ->. reflexivity.
Qed.

(** A loop that ended in a fault ended in the body of its last pass. *)
Lemma while_crashed_last (body : Z -> M W Z) fuel : forall t (w : W) x,
  snd (while_should_run body fuel t w) = Crashed x ->
  exists pre v t' w',
    fst (fst (while_should_run body fuel t w)) =
      pre ++ [LoadShouldRun v :: events (body t' w')] /\
    outcome (body t' w') = Fault x.
Proof.
  induction fuel as [|fuel IH]; intros t w x; cbn [while_should_run];
    [discriminate|].
  destruct (env_should_run w) as [v w1].
  destruct (v =? 0); [discriminate|].
  destruct (body t w1) as [[l w2] [t'|y]] eqn:Hb.
  - specialize (IH t' w2 x).
    destruct (while_should_run body fuel t' w2) as [[ls w3] st].
    cbn [fst snd] in *. intros Hx.
    destruct (IH Hx) as (pre & v1 & t1 & w1' & -> & Ho).
    exists ((LoadShouldRun v :: l) :: pre), v1, t1, w1'. auto.
  - cbn [fst snd]. intros Hx. injection Hx as <-.
    exists [], v, t, w1. rewrite Hb. auto.
Qed.

(** The loop of the memory-check thread, with the marks it runs with. *)
Lemma memory_thread_loop config fuel (w : W) :
  let total := to_size_t (fst (env_get_memory_size w)) in
  let mx := to_size_t (env_percent_of (max_memory_percent config) total) in
  let sf := to_size_t (env_percent_of (safe_memory_percent config) total) in
  exists w0,
    wakes (memory_check_thread_main config fuel w) =
    fst (fst (while_should_run (wake MemoryCheckWorker mx sf config) fuel 0 w0)).
Proof.
  cbv zeta. unfold memory_check_thread_main, thread.
  prims; unfold bind, call_, call, ret.
  destruct (env_get_memory_size w) as [v w1]. cbn.
  eexists. reflexivity.
Qed.

End RunFacts.

(** * The run of a thread *)

Section Runs.
Context {W : Type} {E : Environment W}.

(** From its start and for as long as it runs, no thread makes a
    seventeenth call on a filter (flush, unmap or flush-and-unmap)
    without a checkpoint with the manager since the sixteenth before
    it: the checkpoint of every wake and the one after every sixteenth
    call of a pass see to it, whatever the length of the chains and the
    results of the calls. *)
Theorem checkpoint_within_sixteen_calls k config fuel (w : W) :
  let r := thread_main k config fuel w in
  checkpointed_every 16 0 (startup r ++ List.concat (wakes r)) = true.
Proof.
  cbv zeta. rewrite checkpointed_every_app.
  destruct (thread_main_startup k config fuel w) as [fmt ->].
  replace (checkpointed_every 16 0 _) with true by (destruct k; reflexivity).
  cbn [andb]. apply checkpointed_concat.
  apply run_entries; [reflexivity|].
  intros v mx sf t w' _ since.
  cbn [checkpointed_every is_checkpoint is_filter_call].
  apply wake_checkpointed.
Qed.

(** Every pass through the loop of a thread is the loop test that
    ends the loop, or it sleeps exactly once and reads the flag once for
    the loop test and at most once more: the action of a wake never
    sleeps and never looks at the flag. *)
Theorem one_sleep_per_wake k config fuel (w : W) :
  Forall paced (wakes (thread_main k config fuel w)).
Proof.
  apply run_entries; [left; reflexivity|].
  intros v mx sf t w' _. right.
  destruct (wake_permitted k mx sf config t w') as (_ & Hs & Hf).
  rewrite !count_cons, Hs. cbn [is_sleep is_flag_read]. lia.
Qed.

(** In its loop a thread makes no other calls than its own: the
    flag, the sleep of 250000 microseconds, the checkpoint, syslog, the
    release of a list and, for the flush thread, the enumeration of all
    filters and the flush; for the cold-unmap thread, the enumeration of
    the cold filters and the unmap; for the memory-check thread, the
    enumeration of all filters, the flush-and-unmap and the sample of
    the resident memory.  The size of the memory is asked for once, by
    the memory-check thread, before its loop. *)
Theorem thread_makes_its_own_calls k config fuel (w : W) :
  let r := thread_main k config fuel w in
  Forall (Forall (fun e => permitted k e = true)) (wakes r) /\
  count is_memory_size (startup r) =
    match k with MemoryCheckWorker => 1 | _ => 0 end.
Proof.
  cbv zeta. split.
  - apply run_entries; [repeat constructor|].
    intros v mx sf t w' _. constructor; [reflexivity|].
    apply wake_permitted.
  - destruct (thread_main_startup k config fuel w) as [fmt ->].
    destruct k; reflexivity.
Qed.

(** In the cold-unmap and memory-check threads every line of the
    log that names a filter is followed, before the next such line, by
    the call on that very filter, and no call is made on a filter that
    the line before it did not name; the flush thread writes no line
    that names a filter. *)
Theorem lines_name_the_filter_called k config fuel (w : W) :
  Forall (lines_match_calls k) (wakes (thread_main k config fuel w)).
Proof.
  apply run_entries; [destruct k; cbn; repeat constructor|].
  intros v mx sf t w' _. apply wake_lines.
Qed.

(** Over a whole run a thread releases as many lists as its
    enumerations returned successfully, whether it has returned or is
    still running; only the run that ended in the fault behind the
    chain holds one list that it never released. *)
Theorem lists_released_over_a_run k config fuel (w : W) :
  let r := thread_main k config fuel w in
  count is_successful_enumeration (List.concat (wakes r)) =
  count is_release (List.concat (wakes r)) +
  match exit r with Crashed NullDereference => 1 | _ => 0 end.
Proof.
  cbv zeta.
  destruct (thread_main_loop k config fuel w) as (mx & sf & w0 & _ & -> & ->).
  apply while_balance.
Qed.

(** In every wake of every thread the release of a list is the
    last thing the wake does, so that no call is made on a filter of a
    list already released; the list released is the one that the
    enumeration of this very wake returned successfully, and the wake
    releases nothing else. *)
Theorem release_is_the_last_call k config fuel (w : W) n l l1 h l2 :
  nth_error (wakes (thread_main k config fuel w)) n = Some l ->
  l = l1 ++ CleanupList h :: l2 ->
  l2 = [] /\ In (enumeration_of k 0 h) l1 /\ count is_release l1 = 0.
Proof.
  intros Hn. apply nth_error_In in Hn. revert l1 h l2.
  pattern l. revert l Hn. apply Forall_forall.
  assert (Hnone : forall p l1 h l2,
            count is_release p = 0 -> p = l1 ++ CleanupList h :: l2 -> False).
  { intros p l1 h l2 Hc Heq. rewrite <- (app_nil_r p) in Heq.
    destruct (@split_behind _ _ _ _ _ Hc Heq) as (l1' & _ & Hl).
    destruct l1'; discriminate. }
  apply run_entries.
  - intros l1 h l2 Heq. exfalso. eapply Hnone; [|exact Heq]. reflexivity.
  - intros v mx sf t w' _ l1 h l2.
    destruct (wake_forms k mx sf config t w')
      as [[-> _]|[[-> _]|(v1 & w1 & Hv & -> & _)]].
    + intros Heq. exfalso. eapply Hnone; [|exact Heq]. reflexivity.
    + intros Heq. exfalso. eapply Hnone; [|exact Heq]. reflexivity.
    + intros Heq.
      destruct (@split_behind
                  [LoadShouldRun v; Usleep PERIODIC_TIME_USEC; ClientCheckpoint;
                   LoadShouldRun v1] (events (pass k mx sf w1)) l1 h l2
                  eq_refl Heq) as (l1' & -> & Hp).
      apply pass_release_last in Hp. destruct Hp as (-> & Hin & Hc).
      split; [reflexivity|]. split.
      * apply in_or_app. right. exact Hin.
      * rewrite count_app, Hc. reflexivity.
Qed.

(** The memory-check thread asks for the size of the memory once,
    before its loop, and every wake of its run compares the resident
    memory with the two marks computed from that one answer: a wake
    whose first sample is at or below the maximum enumerates nothing and
    samples no more; a wake whose first sample is above it enumerates
    once, every sample but the last is above the safe mark, and when
    the wake releases its list the last sample is at or below the safe
    mark. *)
Theorem memory_marks_are_fixed config fuel (w : W) n l v0 rest :
  nth_error (wakes (memory_check_thread_main config fuel w)) n = Some l ->
  samples l = v0 :: rest ->
  exists total,
    In (GetMemorySize total)
       (startup (memory_check_thread_main config fuel w)) /\
    count is_memory_size
       (startup (memory_check_thread_main config fuel w)) = 1 /\
    let max_memory :=
      to_size_t (env_percent_of (max_memory_percent config) total) in
    let safe_memory :=
      to_size_t (env_percent_of (safe_memory_percent config) total) in
    (v0 <= max_memory -> rest = [] /\ count is_enumeration l = 0) /\
    (v0 > max_memory ->
       count is_enumeration l = 1 /\
       Forall (fun v => v > safe_memory) (removelast (v0 :: rest)) /\
       (count is_release l = 1 -> last (v0 :: rest) 0 <= safe_memory)).
Proof.
  intros Hn Hs.
  exists (to_size_t (fst (env_get_memory_size w))).
  destruct (thread_main_startup MemoryCheckWorker config fuel w) as [fmt Hst].
  cbn [thread_main] in Hst. rewrite Hst.
  split; [left; reflexivity|]. split; [reflexivity|].
  destruct (memory_thread_loop config fuel w) as [w0 Hl]. cbv zeta in Hl.
  rewrite Hl in Hn. clear Hl Hst. cbv zeta.
  set (mx := to_size_t (env_percent_of (max_memory_percent config)
                          (to_size_t (fst (env_get_memory_size w))))) in *.
  set (sf := to_size_t (env_percent_of (safe_memory_percent config)
                          (to_size_t (fst (env_get_memory_size w))))) in *.
  apply while_nth in Hn; [|apply wake_ticks].
  destruct Hn as (v & w' & [[-> ->]|[Hv ->]]); [discriminate|].
  revert Hs.
  destruct (wake_forms MemoryCheckWorker mx sf config (ticks_after n 0) w')
    as [[-> _]|[[-> _]|(v1 & w1 & Hv1 & -> & _)]]; try discriminate.
  cbn [pass samples].
  destruct (memory_check_pass_spec mx sf w1) as (v0' & rest' & -> & Hle & Hgt).
  cbn [samples]. intros Hs. injection Hs as -> <-.
  rewrite !count_cons. cbn [is_enumeration is_release].
  split.
  - intros Hc. destruct (Hle Hc) as [-> _]. auto.
  - intros Hc. destruct (Hgt Hc) as (res & h & rest2 & -> & Hbad & Hgood).
    rewrite !count_cons. cbn [is_enumeration is_release samples].
    destruct (Z.eq_dec res 0) as [->|Hres].
    + destruct (Hgood eq_refl)
        as (body & _ & _ & _ & Hall &
            [(Hlast & -> & _)|(Hlast & _ & -> & _)] & _ & Hloop);
        cbv zeta in Hall;
        assert (He : count is_enumeration body = 0)
          by (apply count_loop_events; [|exact Hloop];
              intros e He; destruct e; try discriminate; reflexivity);
        assert (Hr : count is_release body = 0)
          by (apply count_loop_events; [|exact Hloop];
              intros e He'; destruct e; try discriminate; reflexivity).
      * rewrite samples_app, count_app, He. cbn [samples].
        rewrite app_nil_r. auto.
      * rewrite He, Hr. split; [reflexivity|]. split; [exact Hall|lia].
    + destruct (Hbad Hres) as [-> _]. cbn. split; [reflexivity|].
      split; [constructor|lia].
Qed.

(** A thread ends in a fault in three ways only.  The
    memory-check thread faults behind the chain: its last wake
    enumerated the filters successfully, evicted every one of them and
    released nothing.  Any thread faults by a division by zero when its
    interval is 0, and by overflow when four times its interval is no
    [int].  So the flush and cold-unmap threads with an interval from 1
    to 536870911 seconds never fault. *)
Theorem faults_only_behind_the_chain k config fuel (w : W) x :
  exit (thread_main k config fuel w) = Crashed x ->
  (x = NullDereference /\ k = MemoryCheckWorker /\
   exists pre l h,
     wakes (thread_main k config fuel w) = pre ++ [l] /\
     In (ListFilters 0 h) l /\ filters_touched l = head h /\
     count is_release l = 0)
  \/
  (x = DivisionByZero /\ interval k config = 0)
  \/
  (x = SignedOverflow /\
   (interval k config * 4 < INT_MIN \/ INT_MAX < interval k config * 4)).
Proof.
  destruct (thread_main_loop k config fuel w) as (mx & sf & w0 & _ & -> & ->).
  intros Hx.
  apply while_crashed_last in Hx.
  destruct Hx as (pre & v & t' & w' & -> & Ho).
  apply wake_fault in Ho. destruct Ho as [H|[H|(v1 & w1 & He & Hp)]]; auto.
  left. apply pass_fault in Hp.
  destruct Hp as (-> & -> & h & Hin & Hall & Hr).
  split; [reflexivity|]. split; [reflexivity|].
  exists pre, (LoadShouldRun v :: events (wake MemoryCheckWorker mx sf config t' w')), h.
  split; [reflexivity|]. rewrite He.
  split; [do 4 right; exact Hin|].
  split; [exact Hall|].
  rewrite !count_cons. cbn [is_release]. rewrite Hr. reflexivity.
Qed.

End Runs.

(** Witness of [release_is_the_last_call]: the fourth wake of the flush
    thread over two filters. *)
Lemma release_is_the_last_call_witness :
  nth_error (wakes (thread_main FlushWorker (Sim.config 1) 8 Sim.two_filters)) 3
  = Some ([LoadShouldRun 1; Usleep 250000; ClientCheckpoint; LoadShouldRun 1;
           Syslog LOG_INFO "Scheduled flush started." [];
           ListFilters 0 (snd (Sim.listing (Sim.names 2)));
           FlushFilter "a" 0; FlushFilter "b" 0]
          ++ [CleanupList (snd (Sim.listing (Sim.names 2)))]) /\
  (@nil event = [] /\
   In (enumeration_of FlushWorker 0 (snd (Sim.listing (Sim.names 2))))
      [LoadShouldRun 1; Usleep 250000; ClientCheckpoint; LoadShouldRun 1;
       Syslog LOG_INFO "Scheduled flush started." [];
       ListFilters 0 (snd (Sim.listing (Sim.names 2)));
       FlushFilter "a" 0; FlushFilter "b" 0] /\
   count is_release
      [LoadShouldRun 1; Usleep 250000; ClientCheckpoint; LoadShouldRun 1;
       Syslog LOG_INFO "Scheduled flush started." [];
       ListFilters 0 (snd (Sim.listing (Sim.names 2)));
       FlushFilter "a" 0; FlushFilter "b" 0] = 0).
Proof.
  split; [vm_compute; reflexivity|].
  eapply (@release_is_the_last_call Sim.world _ FlushWorker (Sim.config 1) 8
            Sim.two_filters 3); [|reflexivity].
  vm_compute. reflexivity.
Defined.

(** Witness of [memory_marks_are_fixed]: the fourth wake of the
    memory-check thread over five filters, with a memory of 100, the
    maximum at 80 and the safe mark at 50. *)
Lemma memory_marks_are_fixed_witness :
  samples
    (nth 3 (wakes (memory_check_thread_main (Sim.config 1) 8 Sim.five_filters))
       []) = [100; 80; 60; 40] /\
  exists total,
    In (GetMemorySize total)
       (startup (memory_check_thread_main (Sim.config 1) 8 Sim.five_filters)) /\
    count is_memory_size
       (startup (memory_check_thread_main (Sim.config 1) 8 Sim.five_filters))
      = 1 /\
    let max_memory :=
      to_size_t (env_percent_of
                   (max_memory_percent (Sim.config 1)) total) in
    let safe_memory :=
      to_size_t (env_percent_of
                   (safe_memory_percent (Sim.config 1)) total) in
    (100 <= max_memory ->
       [80; 60; 40] = [] /\
       count is_enumeration
         (nth 3 (wakes (memory_check_thread_main (Sim.config 1) 8
                          Sim.five_filters)) []) = 0) /\
    (100 > max_memory ->
       count is_enumeration
         (nth 3 (wakes (memory_check_thread_main (Sim.config 1) 8
                          Sim.five_filters)) []) = 1 /\
       Forall (fun v => v > safe_memory) (removelast [100; 80; 60; 40]) /\
       (count is_release
          (nth 3 (wakes (memory_check_thread_main (Sim.config 1) 8
                           Sim.five_filters)) []) = 1 ->
        last [100; 80; 60; 40] 0 <= safe_memory)).
Proof.
  split; [vm_compute; reflexivity|].
  apply (@memory_marks_are_fixed Sim.world _ (Sim.config 1) 8 Sim.five_filters
           3); vm_compute; reflexivity.
Defined.

(** Witness of [faults_only_behind_the_chain]: the memory-check thread
    over two filters that do not free enough. *)
Lemma faults_only_behind_the_chain_witness :
  exit (thread_main MemoryCheckWorker (Sim.config 1) 8 Sim.two_filters)
    = Crashed NullDereference /\
  ((NullDereference = NullDereference /\
    MemoryCheckWorker = MemoryCheckWorker /\
    exists pre l h,
      wakes (thread_main MemoryCheckWorker (Sim.config 1) 8 Sim.two_filters)
        = pre ++ [l] /\
      In (ListFilters 0 h) l /\ filters_touched l = head h /\
      count is_release l = 0)
   \/
   (NullDereference = DivisionByZero /\
    interval MemoryCheckWorker (Sim.config 1) = 0)
   \/
   (NullDereference = SignedOverflow /\
    (interval MemoryCheckWorker (Sim.config 1) * 4 < INT_MIN \/
     INT_MAX < interval MemoryCheckWorker (Sim.config 1) * 4))).
Proof.
  split; [vm_compute; reflexivity|].
  apply (@faults_only_behind_the_chain Sim.world _ MemoryCheckWorker
           (Sim.config 1) 8 Sim.two_filters NullDereference).
  vm_compute. reflexivity.
Defined.

(** * Concrete runs *)

Module Cases.

(** C1 (not met by the code).  The memory-check thread, one
    second interval, filters that do not free enough: the thread evicts
    both enumerated filters on its fourth wake and then reads
    [node->filter_name] through the null pointer; it does not return to
    sampling.  With an empty enumeration it does so before any eviction. *)
Theorem eviction_runs_off_the_chain :
  (let r := memory_check_thread_main (Sim.config 1) 8 Sim.two_filters in
   exit r = Crashed NullDereference /\
   List.length (wakes r) = 4%nat /\
   filters_touched (List.concat (wakes r)) = Sim.names 2 /\
   samples (List.concat (wakes r)) = [100; 80; 60]) /\
  (let r := memory_check_thread_main (Sim.config 1) 8 Sim.no_filter in
   exit r = Crashed NullDereference /\
   List.length (wakes r) = 4%nat /\
   filters_touched (List.concat (wakes r)) = [] /\
   samples (List.concat (wakes r)) = [100]).
Proof. vm_compute. repeat split; reflexivity. Qed.

(** C9 (not met by the code).  In the same run the
    enumeration succeeded once and [filtmgr_cleanup_list] is never
    called: the thread faults between the last eviction and the release. *)
Theorem list_not_released_when_the_chain_runs_out :
  let r := memory_check_thread_main (Sim.config 1) 8 Sim.two_filters in
  count is_successful_enumeration (List.concat (wakes r)) = 1 /\
  count is_release (List.concat (wakes r)) = 0 /\
  exit r = Crashed NullDereference.
Proof. vm_compute. repeat split; reflexivity. Qed.

(** The memory-check thread on five filters: it stops after the third
    eviction, at the first reading not above the safe mark, releases the
    list and goes on waking. *)
Example evicts_three_of_five :
  let r := memory_check_thread_main (Sim.config 1) 8 Sim.five_filters in
  filters_touched (List.concat (wakes r)) = Sim.names 3 /\
  samples (List.concat (wakes r)) = [100; 80; 60; 40; 40] /\
  count is_release (List.concat (wakes r)) = 1 /\
  exit r = Running 8.
Proof. vm_compute. repeat split; reflexivity. Qed.

(** The flush thread with an interval of one second, over eight wakes:
    the fourth and the eighth wake act. *)
Example flush_every_fourth_wake :
  let r := flush_thread_main (Sim.config 1) 8 Sim.five_filters in
  map acted (wakes r) = [false; false; false; true; false; false; false; true] /\
  exit r = Running 8.
Proof. vm_compute. split; reflexivity. Qed.

(** A pass over 33 filters checkpoints twice. *)
Example thirty_three_filters :
  let w := Sim.steady [Sim.listing (Sim.names 33)] [] 0 0 in
  count is_filter_call (events (flush_pass w)) = 33 /\
  count is_checkpoint (events (flush_pass w)) = 2.
Proof. vm_compute. split; reflexivity. Qed.





(** C6, counterexample.  The memory-check thread over five filters that
    free 20 each, from 100, with the flag cleared while the pass of the
    fourth wake is under way: the pass evicts three of the five
    enumerated filters, releases the list, and the thread returns at the
    next loop test. *)
Lemma memory_pass_leaves_filters :
  ~ pass_completes (W:=Sim.world) MemoryCheckWorker /\
  (let r := memory_check_thread_main (Sim.config 1) 8 Sim.stopped_in_the_pass in
   In (ListFilters 0 {| size := 5; head := Sim.names 5 |}) (nth 3 (wakes r) []) /\
   filters_touched (nth 3 (wakes r) []) = Sim.names 3 /\
   count is_release (nth 3 (wakes r) []) = 1 /\
   skipn 4 (wakes r) = [[LoadShouldRun 0]] /\
   exit r = Returned).
Proof.
  split.
  - intros H.
    destruct (H 80 50 Sim.five_filters {| size := 5; head := Sim.names 5 |})
      as (_ & Ht & _).
    + left. vm_compute. auto.
    + vm_compute in Ht. discriminate.
  - vm_compute. repeat split; auto 10.
Qed.

(** C8 (not met by the code).  A failed enumeration is logged by the
    flush thread and by the memory-check thread (the warning "Failed to
    list filters for flushing!"), and not by the cold-unmap thread: its
    pass ends on a bare [continue], so that nothing is written to the
    log after the failure.  In the run of the cold-unmap thread the
    fourth wake ends on the failed enumeration without a line, and the
    thread goes on. *)
Theorem cold_unmap_fails_silently :
  ~ failure_rule (W:=Sim.world) ColdUnmapWorker /\
  events (unmap_pass Sim.failing_once) =
    [Syslog LOG_INFO "Cold unmap started." [];
     ListColdFilters (-1) {| size := 0; head := [] |}] /\
  events (flush_pass Sim.failing_once) =
    [Syslog LOG_INFO "Scheduled flush started." [];
     ListFilters (-1) {| size := 0; head := [] |};
     Syslog LOG_WARNING "Failed to list filters for flushing!" []] /\
  events (memory_check_pass 80 50 Sim.failing_once) =
    [GetCurrentRSS 100;
     Syslog LOG_INFO "Max memory exceeded. Unmapping filters to reclaim RAM." [];
     ListFilters (-1) {| size := 0; head := [] |};
     Syslog LOG_WARNING "Failed to list filters for flushing!" []] /\
  (let r := unmap_thread_main (Sim.config 1) 8 Sim.failing_once in
   nth 3 (wakes r) [] =
     [LoadShouldRun 1; Usleep 250000; ClientCheckpoint; LoadShouldRun 1;
      Syslog LOG_INFO "Cold unmap started." [];
      ListColdFilters (-1) {| size := 0; head := [] |}] /\
   count is_syslog (skipn 5 (nth 3 (wakes r) [])) = 0 /\
   filters_touched (nth 7 (wakes r) []) = Sim.names 3 /\
   exit r = Running 8).
Proof.
  split; [|vm_compute; repeat split; reflexivity].
  intros H. destruct (H 80 50 Sim.failing_once) as (_ & _ & Hlog & _).
  - exists (-1), {| size := 0; head := [] |}. split; [discriminate|].
    right. vm_compute. auto.
  - vm_compute in Hlog. discriminate.
Qed.

(** Witness of [failed_enumeration_skips_the_cycle]: the flush thread,
    one second interval, eight wakes: the enumeration of the fourth wake
    fails, the one of the eighth wake gives three filters. *)
Lemma failed_enumeration_witness :
  let r := flush_thread_main (Sim.config 1) 8 Sim.failing_once in
  let l := nth 3 (wakes r) [] in
  let post := skipn 4 (wakes r) in
  count is_filter_call l = 0 /\
  count is_release l = 0 /\
  logged_after_enumeration l = true /\
  count is_warning l = 1 /\
  (post = [] -> exists t, exit r = Running t) /\
  (forall l' h, In l' post ->
     In (ListFilters 0 h) l' \/ In (ListColdFilters 0 h) l' ->
     (exists left, head h = filters_touched l' ++ left) /\
     (FlushWorker <> MemoryCheckWorker ->
        filters_touched l' = head h /\ count is_release l' = 1)) /\
  failure_rule (W:=Sim.world) FlushWorker /\
  failure_rule (W:=Sim.world) MemoryCheckWorker.
Proof.
  cbv zeta.
  apply (failed_enumeration_skips_the_cycle FlushWorker (Sim.config 1) 8
           Sim.failing_once
           (firstn 3 (wakes (flush_thread_main (Sim.config 1) 8 Sim.failing_once)))).
  - vm_compute. reflexivity.
  - exists (-1), {| size := 0; head := [] |}. split; [discriminate|].
    left. vm_compute. auto 10.
Defined.

(** C6, witness.  The cold-unmap thread, one second interval: the flag
    is cleared before the interval test of the fourth wake, which
    therefore starts nothing; the loop test that follows ends the
    thread. *)
Lemma no_new_action_witness :
  let r := unmap_thread_main (Sim.config 1) 8 Sim.stopped_at_the_test in
  let l := nth 3 (wakes r) [] in
  let post := skipn 4 (wakes r) in
  (acted l = false /\ count is_enumeration l = 0 /\ count is_filter_call l = 0) /\
  (post = [] \/ post = [[LoadShouldRun 0]]) /\
  (exit r = Returned \/ post = [] /\ exists t, exit r = Running t) /\
  ((S (List.length (firstn 3 (wakes r))) < 8)%nat -> exit r = Returned) /\
  pass_completes (W:=Sim.world) FlushWorker /\
  pass_completes (W:=Sim.world) ColdUnmapWorker /\
  (forall mx sf (w' : Sim.world) h,
     let p := events (memory_check_pass mx sf w') in
     In (ListFilters 0 h) p ->
     count is_flag_read p = 0 /\
     (exists left, head h = filters_touched p ++ left) /\
     (outcome (memory_check_pass mx sf w') = Ok tt -> count is_release p = 1)).
Proof.
  cbv zeta.
  apply (no_new_action_after_cancellation ColdUnmapWorker (Sim.config 1) 8
           Sim.stopped_at_the_test
           (firstn 3 (wakes (unmap_thread_main (Sim.config 1) 8 Sim.stopped_at_the_test)))).
  - vm_compute. reflexivity.
  - vm_compute. auto 10.
  - vm_compute. intros l' v [<-|[]] [Hv|[]]. congruence.
Defined.

(** The run of the witness of C6, wake by wake. *)
Example stopped_at_the_test_run :
  let r := unmap_thread_main (Sim.config 1) 8 Sim.stopped_at_the_test in
  wakes r =
    [[LoadShouldRun 1; Usleep 250000; ClientCheckpoint];
     [LoadShouldRun 1; Usleep 250000; ClientCheckpoint];
     [LoadShouldRun 1; Usleep 250000; ClientCheckpoint];
     [LoadShouldRun 1; Usleep 250000; ClientCheckpoint; LoadShouldRun 0];
     [LoadShouldRun 0]] /\
  exit r = Returned.
Proof. vm_compute. split; reflexivity. Qed.

(** Witness of [eviction_faults_behind_the_chain]: two filters that do
    not free enough. *)
Lemma eviction_faults_witness :
  outcome (memory_check_pass 80 50 Sim.two_filters) = Fault NullDereference /\
  filters_touched (events (memory_check_pass 80 50 Sim.two_filters)) =
    head {| size := 2; head := Sim.names 2 |} /\
  count is_release (events (memory_check_pass 80 50 Sim.two_filters)) = 0.
Proof.
  apply (@eviction_faults_behind_the_chain Sim.world _ 80 50 Sim.two_filters
           {| size := 2; head := Sim.names 2 |}).
  - vm_compute. auto 10.
  - vm_compute. repeat constructor.
Defined.

End Cases.
